(** * Maintenance scripts of the Why3 proof repository

    A shallow embedding of the Python scripts of the repository:

    - [cleanProofTree.py]: the tree pruner [clean_proof_tree] and
      [add_doctype];
    - [histogram.py]: [find_proof_elements] and [parse_prover_steps];
    - [src/checkAllFilesHaveProof.py]: the coverage audit
      [check_whyml_files_proven];
    - [src/checkStatementProofConv.py]: the statement/proof separation audit
      ([remove_comments], [check_lemma_axiom_in_lemmas],
      [check_proofs_for_lemmas], [check_whyml_files]).

    Python objects are mutable and compared by identity, so the XML tree of
    [xml.etree.ElementTree] is modelled as a store of [Element] objects
    addressed by references; the pruner mutates that store in place, as the
    script mutates the parsed tree.  An exception is the [None] of the option
    monad.  The file has three parts: the scripts, the vocabulary of their
    specification, and the proofs. *)

From Stdlib Require Import Ascii String.
From stdpp Require Import base option list gmap strings.

(** * Part I: the scripts *)

(** ** xml.etree.ElementTree: elements as objects in a store *)

Module ET.

(** A reference is the identity of a Python object ([id(elem)]). *)
Abbreviation ref := nat.

(** [Element]: a tag, the attribute dictionary and the list of children
    (references to other elements, in document order). *)
Record Element := mkElement {
  tag : string;
  attrib : gmap string string;
  children : list ref
}.

(** The element with another list of children. *)
Definition set_children (e : Element) (cs : list ref) : Element :=
  {| tag := tag e; attrib := attrib e; children := cs |}.

(** [ElementTree]: the object store together with the root element. *)
Record ElementTree := mkTree {
  store : gmap ref Element;
  getroot : ref
}.

(** [Element.iter()]: the element itself, then the elements below each child,
    in document order.  The recursion follows references through the store,
    hence the fuel; a dangling reference (impossible in Python) is an error. *)
Fixpoint iter (fuel : nat) (h : gmap ref Element) (r : ref) : option (list ref) :=
  match fuel with
  | 0 => None
  | S n =>
      e ← h !! r;
      below ← mapM (iter n h) (children e);
      Some (r :: concat below)
  end.

(** [elem.findall(".//" + t)]: every element yielded by [elem.iter(t)] except
    [elem] itself ([if e is not elem]), as a list built before the caller's
    loop starts. *)
Definition findall_descendants (fuel : nat) (h : gmap ref Element) (r : ref)
    (t : string) : option (list ref) :=
  l ← iter fuel h r;
  Some (filter (λ x, tag <$> h !! x = Some t ∧ x ≠ r) l).

(** [list.remove(x)]: drops the first occurrence of [x]; [ValueError] when
    there is none. *)
Fixpoint list_remove (x : ref) (l : list ref) : option (list ref) :=
  match l with
  | [] => None
  | y :: l' => if decide (x = y) then Some l' else (y ::.) <$> list_remove x l'
  end.

(** [parent.remove(child)]: in-place update of the parent's child list. *)
Definition Element_remove (h : gmap ref Element) (parent child : ref)
    : option (gmap ref Element) :=
  e ← h !! parent;
  cs ← list_remove child (children e);
  Some (<[parent := set_children e cs]> h).

End ET.

(** ** cleanProofTree.py *)

Module Pruner.
Import ET.

(** The first loop of [clean_proof_tree]:
<<
    for child in goal:
        if child.tag == "transf":
            transf_child = child
            break
        elif child.tag == "proof" and proof_child is not None:
            proof_child = child
>>
    It returns the pair [(transf_child, proof_child)]. *)
Fixpoint select_children (h : gmap ref Element) (cs : list ref)
    (transf_child proof_child : option ref) : option (option ref * option ref) :=
  match cs with
  | [] => Some (transf_child, proof_child)
  | child :: rest =>
      e ← h !! child;
      if decide (tag e = "transf") then Some (Some child, proof_child)
      else if decide (tag e = "proof" ∧ proof_child ≠ None)
           then select_children h rest transf_child (Some child)
           else select_children h rest transf_child proof_child
  end.

(** The second loop, over the snapshot [list(goal)]:
<<
    for child in list(goal):
        if child != child_to_keep and child.tag in {"proof", "transf"}:
            goal.remove(child)
>>
    [Element] does not define [__eq__], so [!=] compares identities. *)
Fixpoint remove_others (h : gmap ref Element) (goal child_to_keep : ref)
    (snapshot : list ref) : option (gmap ref Element) :=
  match snapshot with
  | [] => Some h
  | child :: rest =>
      e ← h !! child;
      if decide (child ≠ child_to_keep ∧ (tag e = "proof" ∨ tag e = "transf"))
      then h' ← Element_remove h goal child; remove_others h' goal child_to_keep rest
      else remove_others h goal child_to_keep rest
  end.

(** The body of the loop over the goals. *)
Definition clean_goal (h : gmap ref Element) (goal : ref) : option (gmap ref Element) :=
  e ← h !! goal;
  sel ← select_children h (children e) None None;
  let child_to_keep := match sel.1 with Some c => Some c | None => sel.2 end in
  match child_to_keep with
  | Some k => remove_others h goal k (children e)
  | None => Some h
  end.

(** [for goal in goals: ...] threading the store. *)
Fixpoint for_each_goal (h : gmap ref Element) (goals : list ref)
    : option (gmap ref Element) :=
  match goals with
  | [] => Some h
  | goal :: rest => h' ← clean_goal h goal; for_each_goal h' rest
  end.

(** [clean_proof_tree(tree)]: returns the root, whose store has been mutated;
    the result is given as a tree again so that the pruner can be re-run on
    it. *)
Definition clean_proof_tree (fuel : nat) (tree : ElementTree) : option ElementTree :=
  let root := getroot tree in
  goals ← findall_descendants fuel (store tree) root "goal";
  h' ← for_each_goal (store tree) goals;
  Some (mkTree h' root).

End Pruner.

(** ** Python strings and processes

    A [str] is modelled as a [string].  The model covers ASCII text: the
    character classes below are those of Python on the codes 0 to 127 (on a
    [str], Python's classes also hold characters beyond that range, which
    the tables leave out), and a statement that spells out a class by these
    tables is made for ASCII text only ([is_ascii]). *)

Module PyStr.

(** [ord(c)] *)
Definition code (c : ascii) : nat := nat_of_ascii c.

Definition LF : ascii := ascii_of_nat 10.

Definition CR : ascii := ascii_of_nat 13.

(** A character of the ASCII range, on which the classes below are those of
    Python. *)
Definition is_ascii (c : ascii) : bool := code c <? 128.

(** [\s] of [re] on [str], for ASCII: tab, line feed, vertical tab, form
    feed, carriage return, the four separators 28 to 31, and space. *)
Definition is_space (c : ascii) : bool :=
  let n := code c in
  ((9 <=? n) && (n <=? 13)) || ((28 <=? n) && (n <=? 31)) || (n =? 32).

(** [\w] of [re] on [str], for ASCII: letters, digits and the underscore. *)
Definition is_word (c : ascii) : bool :=
  let n := code c in
  ((48 <=? n) && (n <=? 57)) || ((65 <=? n) && (n <=? 90))
  || ((97 <=? n) && (n <=? 122)) || (n =? 95).

(** The line boundaries of [str.splitlines], for ASCII: line feed, vertical
    tab, form feed, carriage return and the separators 28 to 30. *)
Definition is_linebreak (c : ascii) : bool :=
  let n := code c in
  ((10 <=? n) && (n <=? 13)) || ((28 <=? n) && (n <=? 30)).

(** [s.endswith(suffix)] *)
Definition endswith (s suffix : string) : bool :=
  bool_decide (String.list_ascii_of_string suffix
               `suffix_of` String.list_ascii_of_string s).

(** [s.startswith(prefix)] *)
Fixpoint startswith (s prefix : string) : bool :=
  match prefix, s with
  | EmptyString, _ => true
  | String p prefix', String c s' => Ascii.eqb p c && startswith s' prefix'
  | String _ _, EmptyString => false
  end.

(** [needle in s] *)
Fixpoint contains (needle s : string) : bool :=
  startswith s needle
  || match s with
     | EmptyString => false
     | String _ s' => contains needle s'
     end.

(** [s[n:]]: the text after the first [n] characters. *)
Fixpoint slice_from (n : nat) (s : string) : string :=
  match n, s with
  | S n', String _ s' => slice_from n' s'
  | _, _ => s
  end.

(** The longest prefix made of characters of a class, and its length. *)
Fixpoint take_while (p : ascii → bool) (s : string) : string :=
  match s with
  | String c s' => if p c then String c (take_while p s') else EmptyString
  | EmptyString => EmptyString
  end.

Definition span_length (p : ascii → bool) (s : string) : nat :=
  String.length (take_while p s).

(** [s.splitlines()]: the pieces between line boundaries, [\r\n] counting as
    one boundary; no empty last line. *)
Fixpoint splitlines_from (cur : string) (s : string) : list string :=
  match s with
  | EmptyString => if decide (cur = EmptyString) then [] else [cur]
  | String c s' =>
      if is_linebreak c then
        match s' with
        | String c' s'' =>
            if Ascii.eqb c CR && Ascii.eqb c' LF
            then cur :: splitlines_from EmptyString s''
            else cur :: splitlines_from EmptyString s'
        | EmptyString => cur :: splitlines_from EmptyString s'
        end
      else splitlines_from (cur +:+ String c EmptyString) s'
  end.

Definition splitlines (s : string) : list string := splitlines_from EmptyString s.

(** [s.replace(old, new)] for a non-empty [old]: the occurrences of [old]
    are replaced from the left, without overlap.  [skip] counts the
    characters of a replaced occurrence still to pass over. *)
Fixpoint replace_from (old new : string) (skip : nat) (s : string) : string :=
  match s with
  | EmptyString => EmptyString
  | String c s' =>
      match skip with
      | S k => replace_from old new k s'
      | 0 =>
          if startswith s old
          then new +:+ replace_from old new (String.length old - 1) s'
          else String c (replace_from old new 0 s')
      end
  end.

Definition replace (s old new : string) : string := replace_from old new 0 s.

(** [pattern.findall(s)] for a pattern that matches no empty text: [try]
    attempts a match at the start of the text and gives the captured groups
    with the length of the match; the scan resumes after each match. *)
Fixpoint findall_from {A} (try : string → option (A * nat)) (skip : nat)
    (s : string) : list A :=
  match s with
  | EmptyString => []
  | String _ s' =>
      match skip with
      | S k => findall_from try k s'
      | 0 =>
          match try s with
          | Some (groups, len) => groups :: findall_from try (len - 1) s'
          | None => findall_from try 0 s'
          end
      end
  end.

Definition findall {A} (try : string → option (A * nat)) (s : string) : list A :=
  findall_from try 0 s.

(** The text made of the given lines, each ended by a line feed. *)
Definition unlines (ls : list string) : string :=
  foldr (λ l acc, l +:+ String LF acc) EmptyString ls.

End PyStr.

Module Process.

(** How a call ends: it returns, or [exit(code)] ends the process. *)
Inductive outcome := Returns | Exits (code : Z).

(** The exit status of the script run as [__main__]. *)
Definition exit_status (o : outcome) : Z :=
  match o with Returns => 0%Z | Exits code => code end.

(** What a run prints, in order: a line, or the members of a set, one per
    line.  Python iterates over a set in an order that depends on how the
    set was built and on the hash seed of the run, not on its members alone;
    the model records the set and leaves that order open. *)
Inductive printed := Line (text : string) | Members (names : gset string).

End Process.

(** ** src/checkAllFilesHaveProof.py *)

Module Coverage.
Import ET PyStr Process.

(** The loop of [extract_mlw_filenames_from_session] over [root.iter()]:
    [elem.attrib['name']] raises [KeyError] on a [path] without a name. *)
Fixpoint collect_session (h : gmap ref Element) (elems : list ref)
    (mlw_filenames : gset string) : option (gset string) :=
  match elems with
  | [] => Some mlw_filenames
  | r :: rest =>
      e ← h !! r;
      if decide (tag e = "path") then
        name ← attrib e !! "name";
        if endswith name ".mlw"
        then collect_session h rest ({[name]} ∪ mlw_filenames)
        else collect_session h rest mlw_filenames
      else collect_session h rest mlw_filenames
  end.

Definition extract_mlw_filenames_from_session (fuel : nat) (tree : ElementTree)
    : option (gset string) :=
  elems ← iter fuel (store tree) (getroot tree);
  collect_session (store tree) elems ∅.

(** [extract_mlw_filenames_from_directory], on the result of
    [listdir('src/')]. *)
Fixpoint collect_directory (listing : list string) (mlw_filenames : gset string)
    : gset string :=
  match listing with
  | [] => mlw_filenames
  | file_name :: rest =>
      if endswith file_name ".mlw"
      then collect_directory rest ({[file_name]} ∪ mlw_filenames)
      else collect_directory rest mlw_filenames
  end.

Definition extract_mlw_filenames_from_directory (listing : list string) : gset string :=
  collect_directory listing ∅.

(** [if extra: print(header); for file in extra: print(file)]. *)
Definition print_extra (header : string) (extra : gset string) : list printed :=
  if decide (extra ≠ ∅) then [Line header; Members extra] else [].

(** The comparison made by [check_whyml_files_proven], with the lines it
    prints. *)
Definition compare_filenames (session_filenames directory_filenames : gset string)
    : list printed * outcome :=
  let relevant_directory_filenames := directory_filenames ∖ {["twoHonestParties.mlw"]} in
  if decide (session_filenames = relevant_directory_filenames) then
    ([Line "Proof availability check PASSED:";
      Line "Apart from twoHonestParties.mlw, all *.mlw files in the directory have a proof in the proof tree and vice versa."],
     Returns)
  else
    let extra_in_session := session_filenames ∖ relevant_directory_filenames in
    let extra_in_directory := relevant_directory_filenames ∖ session_filenames in
    (Line "Proof availability check FAILED:"
       :: print_extra "*.mlw files in proof tree but not in directory:" extra_in_session
       ++ print_extra "*.mlw files in directory but not in proof tree:" extra_in_directory,
     Exits 1).

Definition check_whyml_files_proven (fuel : nat) (tree : ElementTree)
    (listing : list string) : option (list printed * outcome) :=
  session_filenames ← extract_mlw_filenames_from_session fuel tree;
  let directory_filenames := extract_mlw_filenames_from_directory listing in
  Some (compare_filenames session_filenames directory_filenames).

End Coverage.

(** ** src/checkStatementProofConv.py *)

Module Separation.
Import PyStr Process.

(** [re.sub(r'\(\*.*?\*\)', '', content)] with [DOTALL]: scanning from the
    left, an open marker followed, after it, by a close marker starts a
    comment that ends with the nearest close marker.  [in_comment] tells
    that the scan is inside such a comment. *)
Fixpoint strip_comments (in_comment : bool) (s : string) : string :=
  match s with
  | EmptyString => EmptyString
  | String c s' =>
      if in_comment then
        match s' with
        | String c' s'' =>
            if Ascii.eqb c "*" && Ascii.eqb c' ")"
            then strip_comments false s''
            else strip_comments true s'
        | EmptyString => strip_comments true s'
        end
      else
        match s' with
        | String c' s'' =>
            if Ascii.eqb c "(" && Ascii.eqb c' "*" && contains "*)" s''
            then strip_comments true s''
            else String c (strip_comments false s')
        | EmptyString => String c (strip_comments false s')
        end
  end.

Definition remove_comments (content : string) : string :=
  strip_comments false content.

(** [re.match(r'module\s+(\w+)\s*', line)], giving [group(1)]: the word
    [module] at the start of the line, white space, then the longest run of
    word characters. *)
Definition module_match (line : string) : option string :=
  if startswith line "module" then
    let rest := slice_from 6 line in
    let spaces := span_length is_space rest in
    let name := take_while is_word (slice_from spaces rest) in
    if decide (spaces ≠ 0 ∧ name ≠ EmptyString) then Some name else None
  else None.

(** The body of the loop of [check_lemma_axiom_in_lemmas] over the lines:
    the state is [(current_module, errors)]. *)
Definition scan_line (file_path : string) (st : option string * list string)
    (line : string) : option string * list string :=
  let current_module :=
    match module_match line with
    | Some m => Some m
    | None => st.1
    end in
  if contains "val lemma" line || contains "axiom" line then
    match current_module with
    | Some m =>
        if bool_decide (m ≠ EmptyString) && negb (endswith m "Lemmas")
           && negb (endswith m "Spec")
        then (current_module,
              st.2 ++ ["Error in " +:+ file_path
                       +:+ ": 'val lemma' or 'axiom' found in non-Lemmas module '"
                       +:+ m])
        else (current_module, st.2)
    | None => (current_module, st.2)
    end
  else (current_module, st.2).

(** [check_lemma_axiom_in_lemmas], on the content read from [file_path].
    (The two [findall] results the function also computes are not used.) *)
Definition check_lemma_axiom_in_lemmas (file_path content : string) : list string :=
  let content := remove_comments content in
  (foldl (scan_line file_path) (None, []) (splitlines content)).2.

(** An attempt to match [module\s+] at the start of the text: the length of
    the match. *)
Definition module_keyword (s : string) : option nat :=
  if startswith s "module" then
    let spaces := span_length is_space (slice_from 6 s) in
    if decide (spaces ≠ 0) then Some (6 + spaces) else None
  else None.

(** The longest prefix of the word [w] that matches [\w+] followed by
    [suffix]: among the prefixes of [w] ending in [suffix] with a character
    before it, the longest. *)
Fixpoint longest_with_suffix (suffix : string) (w : string) (n : nat) : option string :=
  match n with
  | 0 => None
  | S k =>
      let p := String.substring 0 n w in
      if (String.length suffix <? n) && endswith p suffix then Some p
      else longest_with_suffix suffix w k
  end.

(** [module\s+(\w+Lemmas)\b] at the start of the text: the word boundary
    after [Lemmas] asks for the whole run of word characters. *)
Definition lemmas_pattern (s : string) : option (string * nat) :=
  k ← module_keyword s;
  let w := take_while is_word (slice_from k s) in
  if (6 <? String.length w) && endswith w "Lemmas"
  then Some (w, k + String.length w) else None.

(** [module\s+(\w+Proofs)\s*:\s*(\w+Lemmas)] at the start of the text. *)
Definition proofs_pattern (s : string) : option ((string * string) * nat) :=
  k ← module_keyword s;
  let w1 := take_while is_word (slice_from k s) in
  if (6 <? String.length w1) && endswith w1 "Proofs" then
    let k1 := k + String.length w1 in
    let k2 := k1 + span_length is_space (slice_from k1 s) in
    if startswith (slice_from k2 s) ":" then
      let k3 := k2 + 1 + span_length is_space (slice_from (k2 + 1) s) in
      let w2 := take_while is_word (slice_from k3 s) in
      g2 ← longest_with_suffix "Lemmas" w2 (String.length w2);
      Some ((w1, g2), k3 + String.length g2)
    else None
  else None.

(** [check_proofs_for_lemmas], on the content read from [file_path]; the
    content is used as read. *)
Definition check_proofs_for_lemmas (file_path content : string) : list string :=
  let lemmas_modules := findall lemmas_pattern content in
  let proofs_modules := findall proofs_pattern content in
  let proofs_dict : gmap string string :=
    foldl (λ d pl, <[pl.1 := pl.2]> d) ∅ proofs_modules in
  foldl (λ errors lemmas,
           let corresponding_proofs := replace lemmas "Lemmas" "Proofs" in
           if decide (proofs_dict !! corresponding_proofs ≠ Some lemmas)
           then errors ++ ["Error in " +:+ file_path
                           +:+ ": No corresponding Proofs module for Lemmas module '"
                           +:+ lemmas +:+ "'"]
           else errors)
        [] lemmas_modules.

(** [check_whyml_files], on the [.mlw] and other files of the current
    directory given as pairs of a name and a content, in the order of
    [os.listdir('.')]. *)
Definition check_whyml_files (directory : list (string * string))
    : list string * outcome :=
  let errors :=
    foldl (λ errors file,
             if endswith file.1 ".mlw"
             then (errors ++ check_lemma_axiom_in_lemmas file.1 file.2)
                    ++ check_proofs_for_lemmas file.1 file.2
             else errors)
          [] directory in
  if decide (errors ≠ [])
  then ("Statement-proof-separation check FAILED:" :: "Errors found:" :: errors,
        Exits 1)
  else (["Statement-proof-separation check PASSED:";
         "All declared lemmas have proofs in their corresponding -Proof modules."],
        Returns).

End Separation.

(** ** cleanProofTree.py: the document type line *)

Module Doctype.
Import PyStr.

(** [b.split(b"\n")]: the pieces between line feeds, empty pieces
    included; never an empty list. *)
Fixpoint split_newline (s : string) : list string :=
  match s with
  | EmptyString => [EmptyString]
  | String c s' =>
      if Ascii.eqb c LF then EmptyString :: split_newline s'
      else match split_newline s' with
           | piece :: pieces => String c piece :: pieces
           | [] => [String c EmptyString]
           end
  end.

(** [b"\n".join(res)] *)
Fixpoint join_newline (res : list string) : string :=
  match res with
  | [] => EmptyString
  | [piece] => piece
  | piece :: rest => piece +:+ String LF (join_newline rest)
  end.

(** [res.insert(i, x)] for an index that is not negative: before the item
    at [i], at the end when the list is shorter. *)
Definition list_insert_at {A} (i : nat) (x : A) (res : list A) : list A :=
  take i res ++ x :: drop i res.

(** The quotation mark. *)
Definition quote : string := String (ascii_of_nat 34) EmptyString.

(** The inserted bytes: the document type declaration, itself on two
    lines. *)
Definition DOCTYPE : string :=
  "<!DOCTYPE why3session PUBLIC " +:+ quote +:+ "-//Why3//proof session v5//EN"
  +:+ quote +:+ String LF (quote +:+ "https://www.why3.org/why3session.dtd"
  +:+ quote +:+ ">").

(** [add_doctype(root)], from the bytes [serialized] that
    [ET.tostring(root, xml_declaration=True, encoding='utf-8')] gives. *)
Definition add_doctype (serialized : string) : string :=
  let res := split_newline serialized in
  let res := list_insert_at 1 DOCTYPE res in
  join_newline res.

End Doctype.

(** ** histogram.py *)

Module Histogram.
Import ET.

(** [find_proof_elements(root)]: [root.findall(".//proof")]. *)
Definition find_proof_elements (fuel : nat) (h : gmap ref Element) (root : ref)
    : option (list ref) :=
  findall_descendants fuel h root "proof".

(** [elem.find(t)] for a plain tag: the first child with that tag, [None]
    when there is none. *)
Fixpoint find_child (h : gmap ref Element) (cs : list ref) (t : string)
    : option (option ref) :=
  match cs with
  | [] => Some None
  | c :: rest =>
      e ← h !! c;
      if decide (tag e = t) then Some (Some c) else find_child h rest t
  end.

Section ParseProverSteps.
(** The builtin [int] on a [str]; [None] is its [ValueError]. *)
Variable int : string → option Z.

(** What one [proof] element brings: nothing without a [result] child, else
    its prover ([proof.get('prover')], possibly [None]) and
    [int(result.get('steps', 0))]. *)
Definition prover_and_steps (h : gmap ref Element) (proof : ref)
    : option (option (option string * Z)) :=
  e ← h !! proof;
  let prover := attrib e !! "prover" in
  result ← find_child h (children e) "result";
  match result with
  | None => Some None
  | Some r =>
      er ← h !! r;
      steps ← match attrib er !! "steps" with
              | Some s => int s
              | None => Some 0%Z
              end;
      Some (Some (prover, steps))
  end.

(** [prover_steps[prover].append(steps)] on a [defaultdict(list)]. *)
Definition append_steps (prover_steps : gmap (option string) (list Z))
    (prover : option string) (steps : Z) : gmap (option string) (list Z) :=
  <[prover := default [] (prover_steps !! prover) ++ [steps]]> prover_steps.

(** The loop of [parse_prover_steps] over the proofs. *)
Fixpoint record_proofs (h : gmap ref Element) (proofs : list ref)
    (prover_steps : gmap (option string) (list Z))
    : option (gmap (option string) (list Z)) :=
  match proofs with
  | [] => Some prover_steps
  | proof :: rest =>
      found ← prover_and_steps h proof;
      match found with
      | None => record_proofs h rest prover_steps
      | Some (prover, steps) =>
          record_proofs h rest (append_steps prover_steps prover steps)
      end
  end.

(** [parse_prover_steps], on the tree that [ET.fromstring(xml_content)]
    gives. *)
Definition parse_prover_steps (fuel : nat) (tree : ElementTree)
    : option (gmap (option string) (list Z)) :=
  proofs ← find_proof_elements fuel (store tree) (getroot tree);
  record_proofs (store tree) proofs ∅.

End ParseProverSteps.

End Histogram.

(** * Part II: the vocabulary of the specification *)

(** ** Trees in the store *)

Module ETSpec.
Import ET.

(** The tag of the object behind a reference. *)
Definition tags (h : gmap ref Element) (c : ref) : option string := tag <$> h !! c.

(** [x] is strictly below [r]: a child, or below a child. *)
Inductive descendant (h : gmap ref Element) : ref → ref → Prop :=
  | descendant_child r e c :
      h !! r = Some e → c ∈ children e → descendant h r c
  | descendant_below r e c x :
      h !! r = Some e → c ∈ children e → descendant h c x → descendant h r x.

(** The tree below [r] is finite and fully present in the store: every
    reference met within [n] levels points to an element. *)
Fixpoint tree_at (h : gmap ref Element) (n : nat) (r : ref) : Prop :=
  match n with
  | 0 => False
  | S n => ∃ e, h !! r = Some e ∧ Forall (tree_at h n) (children e)
  end.

(** A session tree is well formed when the tree at its root is. *)
Definition well_formed (n : nat) (t : ElementTree) : Prop :=
  tree_at (store t) n (getroot t).

(** [h'] has the same objects as [h], with the same tags and attributes,
    and child lists that only lost members. *)
Definition shrinks (h h' : gmap ref Element) : Prop :=
  (∀ r e, h !! r = Some e →
     ∃ e', h' !! r = Some e' ∧ tag e' = tag e ∧ attrib e' = attrib e
           ∧ children e' ⊆ children e)
  ∧ (∀ r, h !! r = None → h' !! r = None).

End ETSpec.

(** ** The pruner *)

Module PrunerSpec.
Import ET ETSpec Pruner.

Section Pruned.
(** The tag of each referenced object; the pruner never changes a tag. *)
Variable τ : ref → option string.

Definition is_transf (c : ref) : Prop := τ c = Some "transf".

Definition is_proof (c : ref) : Prop := τ c = Some "proof".

Definition is_proof_or_transf (c : ref) : Prop := is_proof c ∨ is_transf c.

#[global] Instance is_transf_dec c : Decision (is_transf c) :=
  decide (τ c = Some "transf").

#[global] Instance is_proof_dec c : Decision (is_proof c) :=
  decide (τ c = Some "proof").

#[global] Instance is_proof_or_transf_dec c : Decision (is_proof_or_transf c) :=
  or_dec _ _.

(** The first child tagged [transf], in document order. *)
Fixpoint first_transf (cs : list ref) : option ref :=
  match cs with
  | [] => None
  | c :: rest => if decide (is_transf c) then Some c else first_transf rest
  end.

(** A child survives next to the kept child [k] when it is [k] itself or
    is tagged neither [proof] nor [transf]. *)
Definition kept (k c : ref) : Prop := c = k ∨ ¬ is_proof_or_transf c.

#[global] Instance kept_dec k c : Decision (kept k c) := or_dec _ _.

(** The child list of a goal after its turn in the loop. *)
Definition pruned (cs : list ref) : list ref :=
  match first_transf cs with
  | Some k => filter (kept k) cs
  | None => cs
  end.

(** The child the second loop removes next to the kept child [k]. *)
Definition removed (k c : ref) : Prop := c ≠ k ∧ is_proof_or_transf c.

#[global] Instance removed_dec k c : Decision (removed k c) := and_dec _ _.

End Pruned.

(** The store in which the goals of [G] have had their turn. *)
Definition prune_at (G : list ref) (h : gmap ref Element) : gmap ref Element :=
  map_imap (λ r e,
    Some (if decide (r ∈ G)
          then set_children e (pruned (tags h) (children e)) else e)) h.

(** A goal whose element and children are all in the store. *)
Definition present (h : gmap ref Element) (g : ref) : Prop :=
  ∃ e, h !! g = Some e ∧ Forall (λ c, is_Some (h !! c)) (children e).

(** The goals found by [root.findall(".//goal")] are the elements tagged
    [goal] strictly below the root. *)
Definition goal_node (t : ElementTree) (g : ref) : Prop :=
  descendant (store t) (getroot t) g ∧ tags (store t) g = Some "goal".

(** Sample session trees.  [elem] builds an element without attributes. *)
Definition elem (t : string) (cs : list ref) : Element := mkElement t ∅ cs.

(** A goal with a proof before two transformations and an unrelated child;
    the kept transformation holds a goal proved by two provers. *)
Definition session_mixed : ElementTree :=
  mkTree (list_to_map
    [(0, elem "why3session" [1]); (1, elem "goal" [2; 3; 4; 5]);
     (2, elem "proof" []); (3, elem "transf" [6]); (4, elem "transf" []);
     (5, elem "label" []); (6, elem "goal" [7; 8]);
     (7, elem "proof" []); (8, elem "proof" [])]) 0.

(** A goal discharged by a single prover call. *)
Definition session_one_proof : ElementTree :=
  mkTree (list_to_map
    [(0, elem "why3session" [1]); (1, elem "goal" [2]);
     (2, mkElement "proof" {["prover" := "0"]} [3]);
     (3, mkElement "result" {["steps" := "12"]} [])]) 0.

(** A goal discharged by two prover calls. *)
Definition session_two_proofs : ElementTree :=
  mkTree (list_to_map
    [(0, elem "why3session" [1]); (1, elem "goal" [2; 3]);
     (2, mkElement "proof" {["prover" := "0"]} []);
     (3, mkElement "proof" {["prover" := "1"]} [])]) 0.

End PrunerSpec.

(** ** The coverage audit *)

Module CoverageSpec.
Import ET ETSpec Process.

(** [shows out lines]: [lines] is a transcript of the run that printed
    [out], the members of each set coming one per line, each once, in some
    order. *)
Inductive shows : list printed → list string → Prop :=
  | shows_nil : shows [] []
  | shows_line text out lines :
      shows out lines → shows (Line text :: out) (text :: lines)
  | shows_members X names out lines :
      NoDup names → (∀ x, x ∈ names ↔ x ∈ X) → shows out lines →
      shows (Members X :: out) (names ++ lines).

(** What [print_extra] prints for a set: nothing when it is empty, else
    the header followed by its members, each once. *)
Definition prints_set (header : string) (X : gset string) (l : list string) : Prop :=
  (X = ∅ ∧ l = [])
  ∨ (X ≠ ∅ ∧ ∃ names, l = header :: names ∧ NoDup names ∧ ∀ x, x ∈ names ↔ x ∈ X).

(** The name of a WhyML file: a text that ends in [.mlw]. *)
Definition mlw_name (x : string) : Prop := ∃ stem, x = stem +:+ ".mlw".

(** An element of the session tree: the root or an element below it. *)
Definition in_tree (t : ElementTree) (r : ref) : Prop :=
  r = getroot t ∨ descendant (store t) (getroot t) r.

(** [x] is a WhyML file named by the session: the [name] of some [path]
    element of the tree. *)
Definition session_name (t : ElementTree) (x : string) : Prop :=
  ∃ r e, in_tree t r ∧ store t !! r = Some e ∧ tag e = "path"
         ∧ attrib e !! "name" = Some x ∧ mlw_name x.

(** [x] is a WhyML file of the directory listing, the exempted file
    apart. *)
Definition directory_name (listing : list string) (x : string) : Prop :=
  x ∈ listing ∧ mlw_name x ∧ x ≠ "twoHonestParties.mlw".

(** Every [path] element of the tree has a [name]. *)
Definition paths_named (t : ElementTree) : Prop :=
  ∀ r e, in_tree t r → store t !! r = Some e → tag e = "path" →
         is_Some (attrib e !! "name").

(** A session naming [A.mlw] and [B.mlw], next to a directory entry. *)
Definition session_paths : ElementTree :=
  mkTree (list_to_map
    [(0, mkElement "why3session" ∅ [1; 2]);
     (1, mkElement "path" {["name" := "A.mlw"]} []);
     (2, mkElement "file" ∅ [3; 4]);
     (3, mkElement "path" {["name" := ".."]} []);
     (4, mkElement "path" {["name" := "B.mlw"]} [])]) 0.

End CoverageSpec.

(** ** The separation audit *)

Module SeparationSpec.
Import PyStr Separation.

(** The current module after the lines [ls]: the name declared by the last
    of them that matches a module declaration at its start. *)
Fixpoint current_module (ls : list string) : option string :=
  match ls with
  | [] => None
  | l :: rest =>
      match current_module rest with
      | Some m => Some m
      | None => module_match l
      end
  end.

(** A line with the text of a lemma or axiom declaration. *)
Definition declares (line : string) : bool :=
  contains "val lemma" line || contains "axiom" line.

(** The errors of check A once the lines [ls] have been scanned. *)
Definition errors_after (file_path : string) (ls : list string) : list string :=
  (foldl (scan_line file_path) (None, []) ls).2.

(** The error of check A for a declaration found in module [m] (the source
    leaves the quotation mark after the name open). *)
Definition error_A (file_path m : string) : string :=
  "Error in " +:+ file_path
  +:+ ": 'val lemma' or 'axiom' found in non-Lemmas module '" +:+ m.


(** A file with an axiom in the module [Foo], after a comment over three
    lines that holds the declaration of a [Lemmas] module. *)
Definition source_module_in_comment : string :=
  unlines ["module Foo"; "(*"; "module BarLemmas"; "*)"; "axiom a : true"].

(** A file whose axiom and lemma come before its only module. *)
Definition source_axiom_first : string :=
  unlines ["axiom a : true"; "val lemma b"; "module Foo"; "end"].

(** No comment starts in the text: no open marker has a close marker after
    it. *)
Fixpoint no_comment (s : string) : bool :=
  match s with
  | EmptyString => true
  | String _ s' =>
      negb (startswith s "(*" && contains "*)" (slice_from 2 s)) && no_comment s'
  end.

(** [strips s out]: [out] is [s] without its block comments, a comment
    running from an open marker to the nearest close marker after it,
    whatever lies between (line breaks and further open markers included);
    comments are taken from the left, and an open marker without a close
    marker after it is plain text. *)
Inductive strips : string → string → Prop :=
  | strips_done s : no_comment s = true → strips s s
  | strips_comment pre body post out :
      contains "(*" pre = false →
      contains "*)" body = false →
      strips post out →
      strips (pre +:+ "(*" +:+ body +:+ "*)" +:+ post) (pre +:+ out).

(** A file with two comments, the first over two lines with an axiom and an
    open marker in it. *)
Definition source_commented : string :=
  unlines ["module Foo"; "(* axiom a"; "   (* val lemma b *)"; "end (* of Foo *)"].

(** The text after the last close marker of a text that has one. *)
Fixpoint after_last_close (s : string) : string :=
  match s with
  | EmptyString => EmptyString
  | String _ s' => if contains "*)" s' then after_last_close s' else slice_from 2 s
  end.

(** The stripping as the specification words it, for comparison with
    [remove_comments]: a comment matched greedily runs from the first open
    marker that has a close marker after it to the last close marker of the
    text. *)
Fixpoint remove_comments_greedy (s : string) : string :=
  match s with
  | EmptyString => EmptyString
  | String c s' =>
      if startswith s "(*" && contains "*)" (slice_from 2 s)
      then after_last_close (slice_from 2 s)
      else String c (remove_comments_greedy s')
  end.

End SeparationSpec.

(** ** Further samples and vocabulary *)

Module MoreSpec.
Import ET ETSpec PyStr Separation.

(** A tree whose root is itself a goal with two transformations. *)
Definition session_root_goal : ElementTree :=
  mkTree (list_to_map
    [(0, mkElement "goal" ∅ [1; 2]); (1, mkElement "transf" ∅ []);
     (2, mkElement "transf" ∅ [])]) 0.

(** A session in which a [path] has no [name]. *)
Definition session_nameless_path : ElementTree :=
  mkTree (list_to_map
    [(0, mkElement "why3session" ∅ [1]); (1, mkElement "file" ∅ [2; 3]);
     (2, mkElement "path" {["name" := "A.mlw"]} []);
     (3, mkElement "path" ∅ [])]) 0.

(** A session with a proof of the exempted file. *)
Definition session_exempt_proved : ElementTree :=
  mkTree (list_to_map
    [(0, mkElement "why3session" ∅ [1; 2]);
     (1, mkElement "path" {["name" := "A.mlw"]} []);
     (2, mkElement "path" {["name" := "twoHonestParties.mlw"]} [])]) 0.

(** The errors of both checks for one file of the directory; none for a
    file that is not a [.mlw] file. *)
Definition file_errors (file : string * string) : list string :=
  if endswith file.1 ".mlw"
  then check_lemma_axiom_in_lemmas file.1 file.2
       ++ check_proofs_for_lemmas file.1 file.2
  else [].

(** The error of check B for the module [lemmas]. *)
Definition error_B (file_path lemmas : string) : string :=
  "Error in " +:+ file_path
  +:+ ": No corresponding Proofs module for Lemmas module '" +:+ lemmas +:+ "'".

(** Every character of the text is of the class. *)
Fixpoint all_chars (p : ascii → bool) (s : string) : bool :=
  match s with
  | EmptyString => true
  | String c s' => p c && all_chars p s'
  end.

(** The text does not begin with a character of the class. *)
Definition not_headed (p : ascii → bool) (s : string) : bool :=
  match s with
  | EmptyString => true
  | String c _ => negb (p c)
  end.


(** A file with two [Lemmas] modules and no [Proofs] module. *)
Definition source_two_lemmas : string :=
  unlines ["module FooLemmas"; "end"; "module BarLemmas"; "end"].

(** The steps recorded for the prover [p] among the entries read from the
    proofs, in their order. *)
Definition steps_for (p : option string) (entries : list (option string * Z))
    : list Z :=
  (filter (λ entry, entry.1 = p) entries).*2.

(** [first_result h cs found]: [found] is the first of the children [cs]
    tagged [result], or nothing when none of them is. *)
Inductive first_result (h : gmap ref Element) : list ref → option ref → Prop :=
  | first_result_none cs :
      Forall (λ c, tags h c ≠ Some "result") cs → first_result h cs None
  | first_result_some before r after :
      Forall (λ c, tags h c ≠ Some "result") before →
      tags h r = Some "result" →
      first_result h (before ++ r :: after) (Some r).

(** [reads int h proof entry]: what the [proof] element brings to the
    table.  Without a child tagged [result] it brings nothing.  Otherwise it
    brings its [prover] attribute (possibly absent) with the steps of its
    first [result] child: 0 when that child has no [steps] attribute, else
    the value [int] gives for the attribute. *)
Inductive reads (int : string → option Z) (h : gmap ref Element) (proof : ref)
    : option (option string * Z) → Prop :=
  | reads_skipped e :
      h !! proof = Some e →
      first_result h (children e) None →
      reads int h proof None
  | reads_default e r er prover :
      h !! proof = Some e →
      attrib e !! "prover" = prover →
      first_result h (children e) (Some r) →
      h !! r = Some er →
      attrib er !! "steps" = None →
      reads int h proof (Some (prover, 0%Z))
  | reads_steps e r er prover s steps :
      h !! proof = Some e →
      attrib e !! "prover" = prover →
      first_result h (children e) (Some r) →
      h !! r = Some er →
      attrib er !! "steps" = Some s →
      int s = Some steps →
      reads int h proof (Some (prover, steps)).

(** A conversion for the witnesses: [int] on the numerals [0] to [12]. *)
Definition int_small (s : string) : option Z :=
  Z.of_nat <$> list_find (λ numeral, numeral = s)
                 ["0"; "1"; "2"; "3"; "4"; "5"; "6"; "7"; "8"; "9"; "10"; "11"; "12"]
           ≫= λ found, Some found.1.

(** A session with three proofs by two provers; the second proof has no
    result, the third no [steps]. *)
Definition session_proofs : ElementTree :=
  mkTree (list_to_map
    [(0, mkElement "why3session" ∅ [1]); (1, mkElement "goal" ∅ [2; 4; 5]);
     (2, mkElement "proof" {["prover" := "0"]} [3]);
     (3, mkElement "result" {["steps" := "12"]} []);
     (4, mkElement "proof" {["prover" := "1"]} []);
     (5, mkElement "proof" {["prover" := "0"]} [6]);
     (6, mkElement "result" ∅ [])]) 0.

End MoreSpec.

(** * Part III: proofs *)

(** ** Facts about the store model *)

Module ETFacts.
Import ET ETSpec.

Lemma set_children_id e : set_children e (children e) = e.
Proof. by destruct e. Qed.

Lemma set_children_twice e cs cs' :
  set_children (set_children e cs) cs' = set_children e cs'.
Proof. done. Qed.

Lemma list_remove_elem x l : x ∈ l → is_Some (list_remove x l).
Proof.
  induction l as [|y l IH]; intros Hx; [by apply elem_of_nil in Hx|].
  simpl. destruct (decide (x = y)) as [->|Hne]; [by eexists|].
  apply elem_of_cons in Hx as [->|Hx]; [done|].
  destruct (IH Hx) as [k ->]. by eexists.
Qed.

Lemma list_remove_perm x l k : list_remove x l = Some k → l ≡ₚ x :: k.
Proof.
  revert k. induction l as [|y l IH]; intros k; simpl; [done|].
  destruct (decide (x = y)) as [->|Hne]; [by intros [= ->]|].
  destruct (list_remove x l) as [k'|] eqn:Hk; simpl; [|done].
  intros [= <-]. rewrite (IH k' eq_refl). apply Permutation_swap.
Qed.

Lemma list_remove_filter (P : ref → Prop) `{!∀ x, Decision (P x)} x l k :
  list_remove x l = Some k → ¬ P x → filter P k = filter P l.
Proof.
  revert k. induction l as [|y l IH]; intros k; simpl; [done|].
  destruct (decide (x = y)) as [->|Hne].
  - intros [= ->] Hy. by rewrite filter_cons_False.
  - destruct (list_remove x l) as [k'|] eqn:Hk; simpl; [|done].
    intros [= <-] Hx. rewrite !filter_cons, (IH k' eq_refl Hx). done.
Qed.

Lemma filter_nil_complement {A} (P : A → Prop) `{!∀ x, Decision (P x)} (l : list A) :
  filter P l = [] → filter (λ x, ¬ P x) l = l.
Proof.
  induction l as [|y l IH]; [done|]. rewrite !filter_cons.
  destruct (decide (P y)); [done|]. intros Hl.
  destruct (decide (¬ P y)); [|done]. by rewrite IH.
Qed.

(** Membership in the concatenated results of a [mapM]. *)
Lemma elem_of_mapM_concat {A} (f : A → option (list ref)) (l : list A) k x :
  mapM f l = Some k →
  x ∈ concat k ↔ ∃ c lc, c ∈ l ∧ f c = Some lc ∧ x ∈ lc.
Proof.
  revert k. induction l as [|c l IH]; intros k; simpl.
  - intros [= <-]. simpl. split; [by intros ?%elem_of_nil|].
    by intros (? & ? & ?%elem_of_nil & _).
  - destruct (f c) as [lc|] eqn:Hc; simpl; [|done].
    destruct (mapM f l) as [k'|] eqn:Hk; simpl; [|done].
    intros [= <-]. simpl. rewrite elem_of_app, (IH k' eq_refl). split.
    + intros [Hx|(c' & lc' & Hc' & Hf & Hx)].
      * exists c, lc. by rewrite elem_of_cons; auto.
      * exists c', lc'. by rewrite elem_of_cons; auto.
    + intros (c' & lc' & [->|Hc']%elem_of_cons & Hf & Hx).
      * left. congruence.
      * right. eauto.
Qed.

Lemma iter_unfold n h r l :
  iter (S n) h r = Some l ↔
  ∃ e below, h !! r = Some e ∧ mapM (iter n h) (children e) = Some below
             ∧ l = r :: concat below.
Proof.
  simpl. split.
  - destruct (h !! r) as [e|]; simpl; [|done].
    destruct (mapM (iter n h) (children e)) as [below|] eqn:Hb; simpl; [|done].
    intros [= <-]. eauto.
  - intros (e & below & -> & Hb & ->). simpl. by rewrite Hb.
Qed.

(** A well-formed tree can be traversed with the fuel of its height bound. *)
Lemma iter_tree_at h n r : tree_at h n r → is_Some (iter n h r).
Proof.
  revert r. induction n as [|n IH]; intros r; simpl; [done|].
  intros (e & -> & Hcs). simpl.
  assert (is_Some (mapM (iter n h) (children e))) as [below ->]; [|by eexists].
  apply mapM_is_Some_2. eapply Forall_impl; [exact Hcs|]. intros c Hc. by apply IH.
Qed.

Lemma iter_Some_lookup h n r l : iter n h r = Some l → is_Some (h !! r).
Proof.
  destruct n as [|n]; [done|]. intros (e & ? & -> & _)%iter_unfold. by eexists.
Qed.

Lemma mapM_Some_elem {A B} (f : A → option B) (l : list A) k c :
  mapM f l = Some k → c ∈ l → ∃ y, f c = Some y ∧ y ∈ k.
Proof.
  intros Hk%mapM_Some_1 Hc. apply list_elem_of_lookup in Hc as [i Hi].
  destruct (Forall2_lookup_l _ _ _ _ _ Hk Hi) as (y & Hy & Hf).
  exists y. split; [done|]. apply list_elem_of_lookup. eauto.
Qed.

(** What a successful traversal yields: the root and its descendants. *)
Lemma iter_descendant h n r l x :
  iter n h r = Some l → x ∈ l ↔ x = r ∨ descendant h r x.
Proof.
  revert r l x. induction n as [|n IH]; intros r l x; [done|].
  intros (e & below & He & Hb & ->)%iter_unfold.
  rewrite elem_of_cons, (elem_of_mapM_concat _ _ _ _ Hb). split.
  - intros [->|(c & lc & Hc & Hlc & Hx)]; [by left|right].
    apply (IH _ _ x) in Hlc. apply Hlc in Hx as [->|Hx].
    + by eapply descendant_child.
    + by eapply descendant_below.
  - intros [->|Hd]; [by left|right].
    inversion Hd as [r' e' c He' Hc|r' e' c x' He' Hc Hcx]; simplify_eq.
    + destruct (mapM_Some_elem _ _ _ _ Hb Hc) as (lc & Hlc & _).
      exists x, lc. split_and!; [done..|]. apply (IH _ _ x Hlc). by left.
    + destruct (mapM_Some_elem _ _ _ _ Hb Hc) as (lc & Hlc & _).
      exists c, lc. split_and!; [done..|]. apply (IH _ _ x Hlc). by right.
Qed.

(** Every element met by a successful traversal is in the store, with all
    its children. *)
Lemma iter_closed h n r l x :
  iter n h r = Some l → x ∈ l →
  ∃ e, h !! x = Some e ∧ Forall (λ c, is_Some (h !! c)) (children e).
Proof.
  revert r l. induction n as [|n IH]; intros r l; [done|].
  intros (e & below & He & Hb & ->)%iter_unfold.
  rewrite elem_of_cons, (elem_of_mapM_concat _ _ _ _ Hb).
  intros [->|(c & lc & Hc & Hlc & Hx)]; [|by eapply IH].
  exists e. split; [done|]. apply Forall_forall. intros c Hc.
  destruct (mapM_Some_elem _ _ _ _ Hb Hc) as (lc & Hlc & _).
  by eapply iter_Some_lookup.
Qed.

(** A successful traversal certifies well-formedness (used to check concrete
    trees by computation). *)
Lemma iter_well_formed n t l : iter n (store t) (getroot t) = Some l → well_formed n t.
Proof.
  unfold well_formed. generalize (getroot t) as r. revert l.
  induction n as [|n IH]; intros l r; [done|].
  intros (e & below & He & Hb & ->)%iter_unfold. simpl. exists e. split; [done|].
  apply Forall_forall. intros c Hc.
  destruct (mapM_Some_elem _ _ _ _ Hb Hc) as (lc & Hlc & _). by eapply IH.
Qed.

(** A larger bound, or more fuel, changes nothing. *)
Lemma tree_at_mono h n m r : n ≤ m → tree_at h n r → tree_at h m r.
Proof.
  revert m r. induction n as [|n IH]; intros [|m] r Hnm; simpl; try done; [lia|].
  intros (e & He & Hcs). exists e. split; [done|].
  eapply Forall_impl; [exact Hcs|]. intros c. apply IH. lia.
Qed.

Lemma iter_mono h n m r l : n ≤ m → iter n h r = Some l → iter m h r = Some l.
Proof.
  revert m r l. induction n as [|n IH]; intros [|m] r l Hnm; try done; [lia|].
  intros (e & below & He & Hb & ->)%iter_unfold.
  apply iter_unfold. exists e, below. split_and!; [done| |done].
  apply mapM_Some. apply mapM_Some in Hb.
  eapply Forall2_impl; [exact Hb|]. intros c lc. apply IH. lia.
Qed.

(** A well-formed tree has no cycle: its height bound decreases along
    the descendant relation. *)
Lemma tree_at_descendant h n r x :
  tree_at h n r → descendant h r x → ∃ m, m < n ∧ tree_at h m x.
Proof.
  intros Ht Hd. revert n Ht.
  induction Hd as [r e c He Hc|r e c x He Hc Hd IH]; intros [|n]; simpl; try done.
  - intros (e' & He' & Hcs). simplify_eq. exists n. split; [lia|].
    by eapply Forall_forall in Hcs.
  - intros (e' & He' & Hcs). simplify_eq.
    eapply Forall_forall in Hcs; [|done].
    destruct (IH _ Hcs) as (m & ? & ?). exists m. split; [lia|done].
Qed.

Lemma tree_at_acyclic h n r : tree_at h n r → ¬ descendant h r r.
Proof.
  revert r. induction (lt_wf n) as [n _ IH]. intros r Ht Hd.
  destruct (tree_at_descendant _ _ _ _ Ht Hd) as (m & Hm & Ht').
  by eapply IH.
Qed.

Lemma shrinks_tags h h' c : shrinks h h' → tags h' c = tags h c.
Proof.
  intros [Hs Hn]. unfold tags. destruct (h !! c) as [e|] eqn:He.
  - destruct (Hs _ _ He) as (e' & -> & Ht & _). simpl. by rewrite Ht.
  - by rewrite (Hn _ He).
Qed.

Lemma tree_at_shrinks h h' n r : shrinks h h' → tree_at h n r → tree_at h' n r.
Proof.
  intros [Hs _]. revert r. induction n as [|n IH]; intros r; simpl; [done|].
  intros (e & He & Hcs). destruct (Hs _ _ He) as (e' & He' & _ & _ & Hsub).
  exists e'. split; [done|]. apply Forall_forall. intros c Hc.
  apply IH. eapply Forall_forall in Hcs; [done|]. by apply Hsub.
Qed.

Lemma descendant_shrinks h h' r x :
  shrinks h h' → descendant h' r x → descendant h r x.
Proof.
  intros [Hs Hn]. 
  assert (∀ r e', h' !! r = Some e' →
            ∃ e, h !! r = Some e ∧ children e' ⊆ children e) as Hback.
  { intros r0 e' He'. destruct (h !! r0) as [e|] eqn:He.
    - destruct (Hs _ _ He) as (e'' & ? & _ & _ & ?). simplify_eq. eauto.
    - rewrite (Hn _ He) in He'. done. }
  induction 1 as [r e' c He' Hc|r e' c x He' Hc Hd IH].
  - destruct (Hback _ _ He') as (e & He & Hsub).
    eapply descendant_child; [done|]. by apply Hsub.
  - destruct (Hback _ _ He') as (e & He & Hsub).
    eapply descendant_below; [done| |done]. by apply Hsub.
Qed.

End ETFacts.

(** ** The loops of the pruner *)

Module PrunerFacts.
Import ET ETSpec ETFacts Pruner PrunerSpec.

Section PrunedFacts.
Variable τ : ref → option string.

Lemma first_transf_Some cs k :
  first_transf τ cs = Some k ↔
  ∃ pre post, cs = pre ++ k :: post ∧ is_transf τ k ∧ Forall (λ c, ¬ is_transf τ c) pre.
Proof.
  revert k. induction cs as [|c cs IH]; intros k; simpl.
  - split; [done|]. intros ([|??] & ? & ? & _); done.
  - destruct (decide (is_transf τ c)) as [Hc|Hc].
    + split.
      * intros [= <-]. by exists [], cs.
      * intros ([|c' pre] & post & Heq & Hk & Hpre); simplify_eq/=; [done|].
        by apply Forall_cons in Hpre as [? _].
    + rewrite IH. split.
      * intros (pre & post & -> & Hk & Hpre). exists (c :: pre), post.
        split_and!; [done..|]. by constructor.
      * intros ([|c' pre] & post & Heq & Hk & Hpre); simplify_eq/=; [done|].
        apply Forall_cons in Hpre as [_ Hpre]. eauto.
Qed.

Lemma first_transf_None cs :
  first_transf τ cs = None ↔ Forall (λ c, ¬ is_transf τ c) cs.
Proof.
  induction cs as [|c cs IH]; simpl; [by split|].
  destruct (decide (is_transf τ c)) as [Hc|Hc].
  - split; [done|]. by intros [? _]%Forall_cons.
  - rewrite IH. split; [by constructor|]. by intros [_ ?]%Forall_cons.
Qed.

Lemma first_transf_filter_kept cs k :
  first_transf τ cs = Some k → first_transf τ (filter (kept τ k) cs) = Some k.
Proof.
  induction cs as [|c cs IH]; simpl; [done|]. rewrite filter_cons.
  destruct (decide (is_transf τ c)) as [Hc|Hc].
  - intros [= <-]. rewrite decide_True by (by left). simpl.
    by rewrite decide_True.
  - intros Hk. destruct (decide (kept τ k c)); [|by apply IH].
    simpl. rewrite decide_False by done. by apply IH.
Qed.

Lemma pruned_idemp cs : pruned τ (pruned τ cs) = pruned τ cs.
Proof.
  unfold pruned. destruct (first_transf τ cs) as [k|] eqn:Hk.
  - rewrite (first_transf_filter_kept _ _ Hk), list_filter_filter.
    apply list_filter_iff. tauto.
  - by rewrite Hk.
Qed.

Lemma pruned_subseteq cs : pruned τ cs ⊆ cs.
Proof.
  unfold pruned. destruct (first_transf τ cs); [|done].
  intros c. rewrite list_elem_of_filter. tauto.
Qed.

End PrunedFacts.

Lemma first_transf_ext τ τ' cs :
  (∀ c, τ c = τ' c) → first_transf τ cs = first_transf τ' cs.
Proof.
  intros Heq. induction cs as [|c cs IH]; simpl; [done|].
  unfold is_transf_dec, is_transf. rewrite Heq, IH. done.
Qed.

Lemma pruned_ext τ τ' cs : (∀ c, τ c = τ' c) → pruned τ cs = pruned τ' cs.
Proof.
  intros Heq. unfold pruned. rewrite (first_transf_ext _ _ _ Heq).
  destruct (first_transf τ' cs); [|done]. apply list_filter_iff. intros c.
  unfold kept, is_proof_or_transf, is_proof, is_transf. by rewrite Heq.
Qed.

(** *** The two loops over the children of one goal *)

Section OneGoal.
Variable τ : ref → option string.

(** The first loop finds the first [transf] child; its [proof_child] stays
    [None], because the branch that assigns it asks for it to be set
    already. *)
Lemma select_children_spec h cs t :
  (∀ c, tags h c = τ c) →
  Forall (λ c, is_Some (h !! c)) cs →
  select_children h cs t None
  = Some (match first_transf τ cs with Some k => Some k | None => t end, None).
Proof.
  intros Hτ. induction cs as [|c cs IH]; simpl; [done|].
  intros [[e He] Hcs]%Forall_cons. rewrite He. simpl.
  assert (τ c = Some (tag e)) as Hc by (by rewrite <-Hτ; unfold tags; rewrite He).
  unfold is_transf_dec, is_transf. rewrite Hc.
  destruct (decide (tag e = "transf")) as [Ht|Ht].
  - destruct (decide (Some (tag e) = Some "transf")) as [|Hn]; [done|].
    by rewrite Ht in Hn.
  - destruct (decide (Some (tag e) = Some "transf")) as [Hn|]; [by simplify_eq|].
    destruct (decide (tag e = "proof" ∧ None ≠ None)) as [Hp|];
      [by destruct Hp|]. by apply IH.
Qed.

(** The second loop: every child of the snapshot that is to be removed is
    still in the goal when its turn comes, so [remove] never raises, and
    the goal ends with exactly the kept children, in their order. *)
Lemma remove_others_spec k g snapshot : ∀ h e,
  (∀ c, tags h c = τ c) →
  h !! g = Some e →
  Forall (λ c, is_Some (h !! c)) snapshot →
  filter (removed τ k) (children e) ≡ₚ filter (removed τ k) snapshot →
  remove_others h g k snapshot
  = Some (<[g := set_children e (filter (kept τ k) (children e))]> h).
Proof.
  assert (∀ l : list ref,
            filter (kept τ k) l = filter (λ c, ¬ removed τ k c) l) as Hkept.
  { intros l. apply list_filter_iff. intros c. unfold kept, removed.
    destruct (decide (c = k)); tauto. }
  induction snapshot as [|c rest IH]; intros h e Hτ Hg Hin Hperm; simpl.
  - apply Permutation_nil_r in Hperm.
    rewrite Hkept, (filter_nil_complement _ _ Hperm), set_children_id.
    by rewrite insert_id.
  - apply Forall_cons in Hin as [[ec Hec] Hin]. rewrite Hec. simpl.
    assert (τ c = Some (tag ec)) as Hc
      by (by rewrite <-Hτ; unfold tags; rewrite Hec).
    destruct (decide (c ≠ k ∧ (tag ec = "proof" ∨ tag ec = "transf")))
      as [Hrem|Hrem].
    + assert (removed τ k c) as Hrem'.
      { destruct Hrem as [? Ht]. split; [done|].
        unfold is_proof_or_transf, is_proof, is_transf. rewrite Hc.
        destruct Ht as [->| ->]; auto. }
      rewrite filter_cons_True in Hperm by done.
      assert (c ∈ children e) as Hce.
      { eapply (list_elem_of_filter (removed τ k)). rewrite Hperm. by left. }
      destruct (list_remove_elem _ _ Hce) as [cs' Hcs'].
      unfold Element_remove. rewrite Hg. simpl. rewrite Hcs'. simpl.
      rewrite (IH _ (set_children e cs')).
      * rewrite insert_insert_eq. simpl. do 3 f_equal.
        rewrite !Hkept. apply list_remove_filter with (x := c); [done|tauto].
      * intros c'. unfold tags. rewrite lookup_insert.
        destruct (decide (g = c')) as [<-|]; [|apply Hτ].
        specialize (Hτ g). unfold tags in Hτ. by rewrite Hg in Hτ.
      * by rewrite lookup_insert_eq.
      * eapply Forall_impl; [exact Hin|]. intros c'. rewrite lookup_insert.
        destruct (decide (g = c')); [by eexists|done].
      * simpl. apply (Permutation_cons_inv (a := c)). rewrite <-Hperm.
        rewrite (list_remove_perm _ _ _ Hcs'), filter_cons_True by done. done.
    + rewrite filter_cons_False in Hperm.
      * by apply IH.
      * intros [? Ht]. apply Hrem. split; [done|].
        unfold is_proof_or_transf, is_proof, is_transf in Ht. rewrite Hc in Ht.
        destruct Ht as [[=]|[=]]; auto.
Qed.

(** One turn of the loop over the goals. *)
Lemma clean_goal_spec h g e :
  (∀ c, tags h c = τ c) →
  h !! g = Some e →
  Forall (λ c, is_Some (h !! c)) (children e) →
  clean_goal h g = Some (<[g := set_children e (pruned τ (children e))]> h).
Proof.
  intros Hτ Hg Hin. unfold clean_goal. rewrite Hg. simpl.
  rewrite (select_children_spec _ _ _ Hτ Hin). simpl. unfold pruned.
  destruct (first_transf τ (children e)) as [k|].
  - by apply remove_others_spec.
  - by rewrite set_children_id, insert_id.
Qed.

End OneGoal.

(** *** The loop over the goals *)

Lemma lookup_prune_at G h r :
  prune_at G h !! r
  = (λ e, if decide (r ∈ G)
          then set_children e (pruned (tags h) (children e)) else e) <$> h !! r.
Proof. unfold prune_at. rewrite map_lookup_imap. by destruct (h !! r). Qed.

Lemma prune_at_nil h : prune_at [] h = h.
Proof.
  apply map_eq. intros r. rewrite lookup_prune_at.
  destruct (h !! r); simpl; [|done].
  destruct (decide (r ∈ [])) as [Hr|]; [|done]. by apply elem_of_nil in Hr.
Qed.

Lemma tags_prune_at G h c : tags (prune_at G h) c = tags h c.
Proof.
  unfold tags. rewrite lookup_prune_at. destruct (h !! c); simpl; [|done].
  by destruct (decide (c ∈ G)).
Qed.

Lemma shrinks_prune_at G h : shrinks h (prune_at G h).
Proof.
  split.
  - intros r e He. rewrite lookup_prune_at, He. simpl. eexists. split; [done|].
    destruct (decide (r ∈ G)); simpl; [|done]. split_and!; [done..|].
    apply pruned_subseteq.
  - intros r He. by rewrite lookup_prune_at, He.
Qed.

Lemma for_each_goal_spec h rest : ∀ done,
  Forall (present h) rest →
  for_each_goal (prune_at done h) rest = Some (prune_at (done ++ rest) h).
Proof.
  induction rest as [|g rest IH]; intros G Hrest; simpl.
  - by rewrite app_nil_r.
  - apply Forall_cons in Hrest as [(e & He & Hcs) Hrest].
    pose (e1 := if decide (g ∈ G)
                then set_children e (pruned (tags h) (children e)) else e).
    assert (prune_at G h !! g = Some e1) as Hg
      by (by rewrite lookup_prune_at, He).
    rewrite (clean_goal_spec (tags h) _ _ e1); [|apply tags_prune_at|done|].
    + simpl. rewrite (assoc_L _ G [g] rest : G ++ g :: rest = (G ++ [g]) ++ rest).
      rewrite <-IH by done. f_equal. apply map_eq. intros r.
      rewrite lookup_insert. destruct (decide (g = r)) as [<-|Hne].
      * rewrite lookup_prune_at, He. simpl.
        destruct (decide (g ∈ G ++ [g])) as [_|Hn];
          [|destruct Hn; apply elem_of_app; right; by left].
        f_equal. subst e1. destruct (decide (g ∈ G)); simpl; [|done].
        by rewrite pruned_idemp.
      * rewrite !lookup_prune_at. destruct (h !! r); simpl; [|done]. f_equal.
        destruct (decide (r ∈ G)) as [Hr|Hr].
        -- destruct (decide (r ∈ G ++ [g])) as [_|Hn]; [done|].
           destruct Hn. apply elem_of_app. by left.
        -- destruct (decide (r ∈ G ++ [g])) as [Hin|_]; [|done].
           apply elem_of_app in Hin as [?|?%list_elem_of_singleton];
             [done|by subst].
    + assert (children e1 ⊆ children e) as Hsub.
      { subst e1. destruct (decide (g ∈ G)); simpl; [|done].
        apply pruned_subseteq. }
      apply Forall_forall. intros c Hc%Hsub.
      eapply Forall_forall in Hcs as [ec Hec]; [|done].
      rewrite lookup_prune_at, Hec. by eexists.
Qed.

Lemma findall_goal_nodes n t :
  well_formed n t →
  ∃ goals, findall_descendants n (store t) (getroot t) "goal" = Some goals
           ∧ Forall (present (store t)) goals
           ∧ ∀ g, g ∈ goals ↔ goal_node t g.
Proof.
  intros Hwf. destruct (iter_tree_at _ _ _ Hwf) as [l Hl].
  unfold findall_descendants. rewrite Hl. simpl. eexists. split; [done|]. split.
  - apply Forall_forall. intros g [_ Hg]%list_elem_of_filter.
    by eapply iter_closed.
  - intros g. rewrite list_elem_of_filter, (iter_descendant _ _ _ _ _ Hl).
    unfold goal_node, tags. split.
    + intros [[? ?] [?|?]]; done.
    + intros [Hd ?]. split_and!; [done| |by right].
      intros ->. by eapply tree_at_acyclic.
Qed.

Lemma findall_goal_node n t goals g :
  findall_descendants n (store t) (getroot t) "goal" = Some goals →
  g ∈ goals → goal_node t g.
Proof.
  unfold findall_descendants. destruct (iter n (store t) (getroot t)) as [l|] eqn:Hl;
    simpl; [|done].
  intros [= <-] [[Ht Hne] Hg]%list_elem_of_filter. split; [|done].
  apply (iter_descendant _ _ _ _ _ Hl) in Hg as [?|?]; done.
Qed.

(** The pruner returns, and its result is the store in which every goal
    below the root has had its turn. *)
Lemma clean_proof_tree_spec n t :
  well_formed n t →
  ∃ goals, (∀ g, g ∈ goals ↔ goal_node t g)
    ∧ clean_proof_tree n t = Some (mkTree (prune_at goals (store t)) (getroot t)).
Proof.
  intros Hwf. destruct (findall_goal_nodes _ _ Hwf) as (goals & Hf & Hp & Hg).
  exists goals. split; [done|]. unfold clean_proof_tree. rewrite Hf. simpl.
  rewrite <-(prune_at_nil (store t)) at 1.
  by rewrite (for_each_goal_spec _ _ [] Hp).
Qed.

(** A goal below the root without a child tagged [transf] is left as it
    was: nothing is selected to be kept and the removal loop is skipped. *)
Lemma clean_proof_tree_no_transf_unchanged n t g e :
  well_formed n t →
  goal_node t g →
  store t !! g = Some e →
  Forall (λ c, ¬ is_transf (tags (store t)) c) (children e) →
  ∃ t', clean_proof_tree n t = Some t' ∧ store t' !! g = Some e
        ∧ ∀ c, tags (store t') c = tags (store t) c.
Proof.
  intros Hwf Hg He Hcs.
  destruct (clean_proof_tree_spec _ _ Hwf) as (goals & Hgoals & Hrun).
  eexists. split; [exact Hrun|]. simpl. split; [|intros c; apply tags_prune_at].
  rewrite lookup_prune_at, He. simpl.
  destruct (decide (g ∈ goals)); [|done]. unfold pruned.
  apply first_transf_None in Hcs. by rewrite Hcs, set_children_id.
Qed.

(** Once the fuel reaches the height bound of the tree, the result of the
    pruner does not depend on it. *)
Lemma clean_proof_tree_fuel n m t :
  well_formed n t → n ≤ m → clean_proof_tree m t = clean_proof_tree n t.
Proof.
  intros Hwf Hnm. destruct (iter_tree_at _ _ _ Hwf) as [l Hl].
  unfold clean_proof_tree, findall_descendants.
  by rewrite Hl, (iter_mono _ _ _ _ _ Hnm Hl).
Qed.

End PrunerFacts.

(** ** Properties of the pruner *)

Module PrunerTheorems.
Import ET ETSpec ETFacts Pruner PrunerSpec PrunerFacts.

(** C2. For a goal below the root with at least one child tagged [transf]:
    let [k] be its first such child in document order.  The pruner returns,
    and afterwards the goal's children are its former children among which
    only [k] is still tagged [transf] or [proof]; every other child with one
    of these tags is gone, and no tag has changed. *)
Theorem clean_proof_tree_keeps_first_transf n t g e pre k post :
  well_formed n t →
  goal_node t g →
  store t !! g = Some e →
  children e = pre ++ k :: post →
  is_transf (tags (store t)) k →
  Forall (λ c, ¬ is_transf (tags (store t)) c) pre →
  ∃ t' e',
    clean_proof_tree n t = Some t'
    ∧ store t' !! g = Some e'
    ∧ children e'
      = filter (λ c, c = k ∨ ¬ is_proof_or_transf (tags (store t)) c) (children e)
    ∧ k ∈ children e'
    ∧ (∀ c, c ∈ children e' → is_proof_or_transf (tags (store t')) c → c = k)
    ∧ (∀ c, tags (store t') c = tags (store t) c).
Proof.
  intros Hwf Hg He Hcs Hk Hpre.
  destruct (clean_proof_tree_spec _ _ Hwf) as (goals & Hgoals & Hrun).
  assert (first_transf (tags (store t)) (children e) = Some k) as Hfirst
    by (apply first_transf_Some; eauto).
  assert (pruned (tags (store t)) (children e)
          = filter (kept (tags (store t)) k) (children e)) as Hpr
    by (unfold pruned; by rewrite Hfirst).
  eexists _, _. split; [exact Hrun|]. simpl. split_and!.
  - rewrite lookup_prune_at, He. simpl.
    destruct (decide (g ∈ goals)) as [_|Hn]; [done|]. by destruct Hn; apply Hgoals.
  - simpl. by rewrite Hpr.
  - simpl. rewrite Hpr, list_elem_of_filter. split; [by left|].
    rewrite Hcs. apply elem_of_app. right. by left.
  - simpl. rewrite Hpr. intros c [Hc _]%list_elem_of_filter Hpt.
    unfold is_proof_or_transf, is_proof, is_transf in Hpt.
    rewrite !tags_prune_at in Hpt. destruct Hc as [?|Hc]; [done|]. by destruct Hc.
  - intros c. apply tags_prune_at.
Qed.

Lemma clean_proof_tree_keeps_first_transf_witness :
  ∃ t' e',
    clean_proof_tree 5 session_mixed = Some t'
    ∧ store t' !! 1 = Some e'
    ∧ children e'
      = filter (λ c, c = 3 ∨ ¬ is_proof_or_transf (tags (store session_mixed)) c)
          [2; 3; 4; 5]
    ∧ 3 ∈ children e'
    ∧ (∀ c, c ∈ children e' → is_proof_or_transf (tags (store t')) c → c = 3)
    ∧ (∀ c, tags (store t') c = tags (store session_mixed) c).
Proof.
  apply (clean_proof_tree_keeps_first_transf 5 session_mixed 1
           (elem "goal" [2; 3; 4; 5]) [2] 3 [4; 5]).
  - apply (iter_well_formed _ _ [0; 1; 2; 3; 6; 7; 8; 4; 5]). vm_compute. reflexivity.
  - apply (findall_goal_node 5 _ [1; 6]); [vm_compute; reflexivity|].
    apply elem_of_cons. by left.
  - vm_compute. reflexivity.
  - reflexivity.
  - vm_compute. reflexivity.
  - constructor; [|constructor]. vm_compute. intros H. discriminate H.
Defined.

(** C1, as stated, fails: the goal of [session_one_proof] has no child
    tagged [transf], and the pruner does not leave it without a child
    tagged [proof] or [transf]. *)
Lemma proof_only_goal_not_emptied :
  goal_node session_one_proof 1
  ∧ (∃ e, store session_one_proof !! 1 = Some e
          ∧ Forall (λ c, ¬ is_transf (tags (store session_one_proof)) c) (children e))
  ∧ ¬ (∃ t' e', clean_proof_tree 4 session_one_proof = Some t'
                ∧ store t' !! 1 = Some e'
                ∧ Forall (λ c, ¬ is_proof_or_transf (tags (store t')) c) (children e')).
Proof.
  split_and!.
  - apply (findall_goal_node 4 _ [1]); [vm_compute; reflexivity|].
    apply elem_of_cons. by left.
  - eexists. split; [vm_compute; reflexivity|].
    constructor; [|constructor]. vm_compute. intros H. discriminate H.
  - intros (t' & e' & Hrun & He' & Hall). vm_compute in Hrun.
    injection Hrun as <-. vm_compute in He'. injection He' as <-.
    apply Forall_cons in Hall as [Hall _]. apply Hall. left. vm_compute. reflexivity.
Qed.

(** C1, amended. For a goal below the root with no child tagged [transf],
    the pruner returns and does not remove all the children tagged [proof]:
    if the goal had such a child it still has one, and a goal with at most
    one such child is left as it was. *)
Theorem clean_proof_tree_without_transf n t g e :
  well_formed n t →
  goal_node t g →
  store t !! g = Some e →
  Forall (λ c, ¬ is_transf (tags (store t)) c) (children e) →
  ∃ t' e',
    clean_proof_tree n t = Some t'
    ∧ store t' !! g = Some e'
    ∧ (∀ p, p ∈ children e → is_proof (tags (store t)) p →
         ∃ p', p' ∈ children e' ∧ is_proof (tags (store t')) p')
    ∧ (length (filter (is_proof (tags (store t))) (children e)) ≤ 1 → e' = e).
Proof.
  intros Hwf Hg He Hcs.
  destruct (clean_proof_tree_no_transf_unchanged _ _ _ _ Hwf Hg He Hcs)
    as (t' & Hrun & He' & Htags).
  exists t', e. split_and!; [done..| |done].
  intros p Hp Hproof. exists p. split; [done|].
  unfold is_proof. by rewrite Htags.
Qed.

Lemma clean_proof_tree_without_transf_witness :
  ∃ t' e',
    clean_proof_tree 4 session_one_proof = Some t'
    ∧ store t' !! 1 = Some e'
    ∧ (∀ p, p ∈ [2] → is_proof (tags (store session_one_proof)) p →
         ∃ p', p' ∈ children e' ∧ is_proof (tags (store t')) p')
    ∧ (length (filter (is_proof (tags (store session_one_proof))) [2]) ≤ 1 →
       e' = elem "goal" [2]).
Proof.
  apply (clean_proof_tree_without_transf 4 session_one_proof 1 (elem "goal" [2])).
  - apply (iter_well_formed _ _ [0; 1; 2; 3]). vm_compute. reflexivity.
  - apply (findall_goal_node 4 _ [1]); [vm_compute; reflexivity|].
    apply elem_of_cons. by left.
  - vm_compute. reflexivity.
  - constructor; [|constructor]. vm_compute. intros H. discriminate H.
Defined.

(** C3 (violated by the code). On [session_two_proofs] the pruner returns a
    tree whose goal still has two children tagged [proof]. *)
Theorem clean_proof_tree_two_proofs_survive :
  ∃ t' e',
    clean_proof_tree 3 session_two_proofs = Some t'
    ∧ store t' !! 1 = Some e'
    ∧ tag e' = "goal"
    ∧ children e' = [2; 3]
    ∧ tags (store t') 2 = Some "proof"
    ∧ tags (store t') 3 = Some "proof".
Proof.
  eexists _, _. split; [vm_compute; reflexivity|].
  split; [vm_compute; reflexivity|]. by vm_compute.
Qed.

(** C4. The pruner is idempotent: on a well-formed tree it returns, and a
    second run on its result returns that same result. *)
Theorem clean_proof_tree_idempotent n t :
  well_formed n t →
  ∃ t', clean_proof_tree n t = Some t' ∧ clean_proof_tree n t' = Some t'.
Proof.
  intros Hwf.
  destruct (clean_proof_tree_spec _ _ Hwf) as (goals & Hgoals & Hrun).
  eexists. split; [exact Hrun|].
  set (t1 := mkTree (prune_at goals (store t)) (getroot t)).
  assert (well_formed n t1) as Hwf1.
  { eapply tree_at_shrinks; [apply shrinks_prune_at|exact Hwf]. }
  destruct (clean_proof_tree_spec _ _ Hwf1) as (goals1 & Hgoals1 & Hrun1).
  rewrite Hrun1. do 2 f_equal. subst t1. simpl. apply map_eq. intros r.
  rewrite (lookup_prune_at goals1). 
  destruct (prune_at goals (store t) !! r) as [e1|] eqn:He1; simpl; [|done].
  f_equal. destruct (decide (r ∈ goals1)) as [Hr|]; [|done].
  apply Hgoals1 in Hr as [Hd Ht]. simpl in Hd, Ht.
  assert (r ∈ goals) as Hr.
  { apply Hgoals. split.
    - eapply descendant_shrinks; [apply shrinks_prune_at|exact Hd].
    - by rewrite tags_prune_at in Ht. }
  rewrite lookup_prune_at in He1.
  destruct (store t !! r) as [e|]; simplify_eq/=.
  destruct (decide (r ∈ goals)); [|done]. simpl.
  rewrite (pruned_ext (tags (prune_at goals (store t))) (tags (store t)))
    by apply tags_prune_at.
  by rewrite pruned_idemp.
Qed.

Lemma clean_proof_tree_idempotent_witness :
  ∃ t', clean_proof_tree 5 session_mixed = Some t'
        ∧ clean_proof_tree 5 t' = Some t'.
Proof.
  apply (clean_proof_tree_idempotent 5 session_mixed).
  apply (iter_well_formed _ _ [0; 1; 2; 3; 6; 7; 8; 4; 5]). vm_compute. reflexivity.
Defined.

(** C5. The pruner only removes children tagged [transf] or [proof]: it
    returns a tree with the same root and the same elements; each element
    keeps its tag and its attributes; its children are a sub-list of the
    former children, in their former order, and the children tagged
    otherwise are all there, in number and order. *)
Theorem clean_proof_tree_frame n t r e :
  well_formed n t →
  store t !! r = Some e →
  ∃ t' e',
    clean_proof_tree n t = Some t'
    ∧ getroot t' = getroot t
    ∧ dom (store t') = dom (store t)
    ∧ store t' !! r = Some e'
    ∧ tag e' = tag e
    ∧ attrib e' = attrib e
    ∧ children e' `sublist_of` children e
    ∧ filter (λ c, ¬ is_proof_or_transf (tags (store t)) c) (children e')
      = filter (λ c, ¬ is_proof_or_transf (tags (store t)) c) (children e).
Proof.
  intros Hwf He.
  destruct (clean_proof_tree_spec _ _ Hwf) as (goals & Hgoals & Hrun).
  eexists _, _. split; [exact Hrun|]. simpl. split_and!.
  - done.
  - apply set_eq. intros x. rewrite !elem_of_dom, lookup_prune_at.
    by rewrite fmap_is_Some.
  - by rewrite lookup_prune_at, He.
  - by destruct (decide (r ∈ goals)).
  - by destruct (decide (r ∈ goals)).
  - destruct (decide (r ∈ goals)); simpl; [|done]. unfold pruned.
    destruct (first_transf _ _); [apply sublist_filter|done].
  - destruct (decide (r ∈ goals)); simpl; [|done]. unfold pruned.
    destruct (first_transf _ _) as [k|]; [|done].
    rewrite list_filter_filter. apply list_filter_iff. intros c.
    unfold kept. tauto.
Qed.

Lemma clean_proof_tree_frame_witness :
  ∃ t' e',
    clean_proof_tree 5 session_mixed = Some t'
    ∧ getroot t' = 0
    ∧ dom (store t') = dom (store session_mixed)
    ∧ store t' !! 1 = Some e'
    ∧ tag e' = "goal"
    ∧ attrib e' = ∅
    ∧ children e' `sublist_of` [2; 3; 4; 5]
    ∧ filter (λ c, ¬ is_proof_or_transf (tags (store session_mixed)) c) (children e')
      = filter (λ c, ¬ is_proof_or_transf (tags (store session_mixed)) c) [2; 3; 4; 5].
Proof.
  apply (clean_proof_tree_frame 5 session_mixed 1 (elem "goal" [2; 3; 4; 5])).
  - apply (iter_well_formed _ _ [0; 1; 2; 3; 6; 7; 8; 4; 5]). vm_compute. reflexivity.
  - vm_compute. reflexivity.
Defined.

End PrunerTheorems.

(** ** Facts about strings *)

Module PyStrFacts.
Import PyStr.

Lemma list_ascii_of_string_app s t :
  list_ascii_of_string (s +:+ t) = list_ascii_of_string s ++ list_ascii_of_string t.
Proof. induction s as [|c s IH]; simpl; [done|by rewrite IH]. Qed.

Lemma endswith_spec s suffix : endswith s suffix = true ↔ ∃ a, s = a +:+ suffix.
Proof.
  unfold endswith. rewrite bool_decide_eq_true. split.
  - intros [k Hk]. exists (string_of_list_ascii k).
    rewrite <-(string_of_list_ascii_of_string s), Hk.
    rewrite <-(list_ascii_of_string_of_list_ascii k) at 1.
    by rewrite <-list_ascii_of_string_app, string_of_list_ascii_of_string.
  - intros [a ->]. exists (list_ascii_of_string a). apply list_ascii_of_string_app.
Qed.

End PyStrFacts.

(** ** Properties of the coverage audit *)

Module CoverageTheorems.
Import ET ETSpec ETFacts PyStr PyStrFacts Process Coverage CoverageSpec.

Lemma collect_directory_spec listing acc x :
  x ∈ collect_directory listing acc
  ↔ x ∈ acc ∨ (x ∈ listing ∧ endswith x ".mlw" = true).
Proof.
  revert acc. induction listing as [|f rest IH]; intros acc; simpl.
  - split; [by left|]. by intros [?|[?%elem_of_nil _]].
  - destruct (endswith f ".mlw") eqn:Hf; rewrite IH, elem_of_cons.
    + rewrite elem_of_union, elem_of_singleton. split.
      * intros [[->|?]|[? ?]]; auto.
      * intros [?|[[->|?] ?]]; auto.
    + split.
      * intros [?|[? ?]]; auto.
      * intros [?|[[->|?] ?]]; auto. congruence.
Qed.

(** The directory-side set: the listed names that end in [.mlw]. *)
Lemma extract_mlw_filenames_from_directory_spec listing x :
  x ∈ extract_mlw_filenames_from_directory listing
  ↔ x ∈ listing ∧ endswith x ".mlw" = true.
Proof.
  unfold extract_mlw_filenames_from_directory. rewrite collect_directory_spec.
  split; [by intros [?%not_elem_of_empty|?]|by right].
Qed.

Lemma collect_session_spec h elems : ∀ acc S x,
  collect_session h elems acc = Some S →
  x ∈ S ↔ x ∈ acc ∨ ∃ r e, r ∈ elems ∧ h !! r = Some e ∧ tag e = "path"
                            ∧ attrib e !! "name" = Some x
                            ∧ endswith x ".mlw" = true.
Proof.
  induction elems as [|r rest IH]; intros acc S x; simpl.
  - intros [= <-]. split; [by left|].
    by intros [?|(? & ? & ?%elem_of_nil & _)].
  - destruct (h !! r) as [e|] eqn:He; simpl; [|done].
    assert (∀ acc', collect_session h rest acc' = Some S →
              (x ∈ acc' ↔ x ∈ acc ∨ (tag e = "path" ∧ attrib e !! "name" = Some x
                                      ∧ endswith x ".mlw" = true)) →
              x ∈ S ↔ x ∈ acc ∨ ∃ r' e', r' ∈ r :: rest ∧ h !! r' = Some e'
                         ∧ tag e' = "path" ∧ attrib e' !! "name" = Some x
                         ∧ endswith x ".mlw" = true) as Hstep.
    { intros acc' Hrest Hacc. rewrite (IH _ _ _ Hrest), Hacc. split.
      - intros [[?|(? & ? & ?)]|(r' & e' & ? & ?)]; [by left|right..].
        + exists r, e. split_and!; [by left|done..].
        + exists r', e'. split; [by right|done].
      - intros [?|(r' & e' & [->|?]%elem_of_cons & He' & ?)]; [by left; left|..].
        + simplify_eq. left. by right.
        + right. eauto. }
    destruct (decide (tag e = "path")) as [Ht|Ht].
    + destruct (attrib e !! "name") as [name|] eqn:Hname; simpl; [|done].
      destruct (endswith name ".mlw") eqn:Hend; intros Hrest;
        apply (Hstep _ Hrest).
      * rewrite elem_of_union, elem_of_singleton. split.
        -- intros [->|?]; [by right|by left].
        -- intros [?|(_ & [= ->] & _)]; [by right|by left].
      * split; [by left|]. intros [?|(_ & [= ->] & ?)]; [done|congruence].
    + intros Hrest. apply (Hstep _ Hrest). split; [by left|].
      by intros [?|[? _]].
Qed.

(** The session-side set: the [name] of every [path] element of the tree,
    the root included, that ends in [.mlw]. *)
Lemma extract_mlw_filenames_from_session_spec fuel tree S x :
  extract_mlw_filenames_from_session fuel tree = Some S →
  x ∈ S ↔ ∃ r e, (r = getroot tree ∨ descendant (store tree) (getroot tree) r)
                 ∧ store tree !! r = Some e ∧ tag e = "path"
                 ∧ attrib e !! "name" = Some x ∧ endswith x ".mlw" = true.
Proof.
  unfold extract_mlw_filenames_from_session.
  destruct (iter fuel (store tree) (getroot tree)) as [l|] eqn:Hl; simpl; [|done].
  intros HS. rewrite (collect_session_spec _ _ _ _ x HS). split.
  - intros [?%not_elem_of_empty|(r & e & Hr & ?)]; [done|].
    exists r, e. split; [|done]. by apply (iter_descendant _ _ _ _ _ Hl).
  - intros (r & e & Hr & ?). right. exists r, e. split; [|done].
    by apply (iter_descendant _ _ _ _ _ Hl).
Qed.

Lemma differences_empty (X Y : gset string) : X ∖ Y = ∅ → Y ∖ X = ∅ → X = Y.
Proof.
  intros HXY HYX. apply set_eq. intros x. split; intros Hx.
  - destruct (decide (x ∈ Y)) as [|Hn]; [done|].
    assert (x ∈ X ∖ Y) as Hin by (by apply elem_of_difference).
    rewrite HXY in Hin. by apply not_elem_of_empty in Hin.
  - destruct (decide (x ∈ X)) as [|Hn]; [done|].
    assert (x ∈ Y ∖ X) as Hin by (by apply elem_of_difference).
    rewrite HYX in Hin. by apply not_elem_of_empty in Hin.
Qed.

Lemma collect_session_None h elems acc r e :
  r ∈ elems → h !! r = Some e → tag e = "path" → attrib e !! "name" = None →
  collect_session h elems acc = None.
Proof.
  intros Hr He Ht Hname. revert acc.
  induction elems as [|r' rest IH]; intros acc; [by apply elem_of_nil in Hr|].
  simpl. apply elem_of_cons in Hr as [<-|Hr].
  - rewrite He. simpl. destruct (decide (tag e = "path")); [|done].
    by rewrite Hname.
  - destruct (h !! r') as [e'|]; simpl; [|done].
    destruct (decide (tag e' = "path")); [|by apply IH].
    destruct (attrib e' !! "name") as [name|]; simpl; [|done].
    destruct (endswith name ".mlw"); by apply IH.
Qed.

Lemma collect_session_Some h elems acc :
  (∀ r, r ∈ elems →
     ∃ e, h !! r = Some e ∧ (tag e = "path" → is_Some (attrib e !! "name"))) →
  is_Some (collect_session h elems acc).
Proof.
  revert acc. induction elems as [|r rest IH]; intros acc Hall; [by eexists|].
  simpl. destruct (Hall r) as (e & -> & Hname); [by left|]. simpl.
  assert (∀ acc', is_Some (collect_session h rest acc')) as Hrest.
  { intros acc'. apply IH. intros r' Hr'. apply Hall. by right. }
  destruct (decide (tag e = "path")) as [Ht|]; [|done].
  destruct (Hname Ht) as [name ->]. simpl. by destruct (endswith name ".mlw").
Qed.

Lemma endswith_mlw_name x : endswith x ".mlw" = true ↔ mlw_name x.
Proof. apply endswith_spec. Qed.

(** The set compared on the directory side. *)
Lemma relevant_directory_filenames_spec listing x :
  x ∈ extract_mlw_filenames_from_directory listing ∖ {["twoHonestParties.mlw"]}
  ↔ directory_name listing x.
Proof.
  unfold directory_name.
  rewrite elem_of_difference, extract_mlw_filenames_from_directory_spec,
    elem_of_singleton, endswith_mlw_name.
  tauto.
Qed.

(** On a well-formed tree whose [path] elements are named, the audit reaches
    its comparison, with the names of the session on the session side. *)
Lemma check_whyml_files_proven_compares n t listing :
  well_formed n t →
  paths_named t →
  ∃ S : gset string,
    (∀ x, x ∈ S ↔ session_name t x)
    ∧ check_whyml_files_proven n t listing
      = Some (compare_filenames S (extract_mlw_filenames_from_directory listing)).
Proof.
  intros Hwf Hnames. destruct (iter_tree_at _ _ _ Hwf) as [l Hl].
  assert (is_Some (extract_mlw_filenames_from_session n t)) as [S HS].
  { unfold extract_mlw_filenames_from_session. rewrite Hl. simpl.
    apply collect_session_Some. intros r Hr.
    destruct (iter_closed _ _ _ _ _ Hl Hr) as (e & He & _).
    exists e. split; [done|]. intros Ht. eapply Hnames; [|done..].
    by apply (iter_descendant _ _ _ _ _ Hl). }
  exists S. split.
  - intros x. rewrite (extract_mlw_filenames_from_session_spec n t S x HS).
    unfold session_name, in_tree.
    split; intros (r & e & ? & ? & ? & ? & Hend); exists r, e;
      (split_and!; [done..|]); by apply endswith_mlw_name.
  - unfold check_whyml_files_proven. by rewrite HS.
Qed.

Lemma shows_nil_inv lines : shows [] lines → lines = [].
Proof. by inversion 1. Qed.

Lemma shows_line_inv text out lines :
  shows (Line text :: out) lines → ∃ rest, lines = text :: rest ∧ shows out rest.
Proof. inversion 1; subst. eauto. Qed.

Lemma shows_members_inv X out lines :
  shows (Members X :: out) lines →
  ∃ names rest, lines = names ++ rest ∧ NoDup names
                ∧ (∀ x, x ∈ names ↔ x ∈ X) ∧ shows out rest.
Proof. inversion 1; subst. eauto 10. Qed.

(** Every run has a transcript. *)
Lemma shows_total out : ∃ lines, shows out lines.
Proof.
  induction out as [|[text|X] out [lines IH]].
  - exists []. constructor.
  - exists (text :: lines). by constructor.
  - exists (elements X ++ lines). constructor; [apply NoDup_elements| |done].
    intros x. apply elem_of_elements.
Qed.

Lemma shows_print_extra header X out lines :
  shows (print_extra header X ++ out) lines →
  ∃ l rest, lines = l ++ rest ∧ prints_set header X l ∧ shows out rest.
Proof.
  unfold print_extra, prints_set. destruct (decide (X ≠ ∅)) as [Hne|He]; simpl.
  - intros (rest & -> & (names & rest' & -> & Hnd & Hnames & Hrest)%shows_members_inv)%shows_line_inv.
    exists (header :: names), rest'. split_and!; [done| |done].
    right. split; [done|]. by exists names.
  - intros Hout. exists [], lines. split_and!; [done| |done].
    left. split; [by apply dec_stable|done].
Qed.

(** C6. On a well-formed session tree whose [path] elements are named, let
    [S] be the names ending in [.mlw] of the [path] elements of the tree and
    [D] the names ending in [.mlw] of the directory listing without
    [twoHonestParties.mlw].  The audit runs to its verdict.  It passes (it
    returns, exit status 0, its transcript being the two PASSED lines and
    nothing else) exactly when [S = D].  Otherwise it exits with status 1,
    and its transcript is the FAILED banner, then the names of [S ∖ D] under
    their header and the names of [D ∖ S] under theirs, each name once,
    nothing at all for an empty difference, one of the two being
    non-empty. *)
Theorem check_whyml_files_proven_pass_iff n t listing :
  well_formed n t →
  paths_named t →
  ∃ (S D : gset string) out o,
    (∀ x, x ∈ S ↔ session_name t x)
    ∧ (∀ x, x ∈ D ↔ directory_name listing x)
    ∧ check_whyml_files_proven n t listing = Some (out, o)
    ∧ (exit_status o = 0%Z ↔ S = D)
    ∧ (S = D →
       o = Returns
       ∧ ∀ lines, shows out lines ↔
           lines = ["Proof availability check PASSED:";
                    "Apart from twoHonestParties.mlw, all *.mlw files in the directory have a proof in the proof tree and vice versa."])
    ∧ (S ≠ D →
       o = Exits 1 ∧ exit_status o = 1%Z
       ∧ (S ∖ D ≠ ∅ ∨ D ∖ S ≠ ∅)
       ∧ (∃ lines, shows out lines)
       ∧ ∀ lines, shows out lines →
           ∃ l1 l2,
             lines = "Proof availability check FAILED:" :: l1 ++ l2
             ∧ prints_set "*.mlw files in proof tree but not in directory:" (S ∖ D) l1
             ∧ prints_set "*.mlw files in directory but not in proof tree:" (D ∖ S) l2).
Proof.
  intros Hwf Hnames.
  destruct (check_whyml_files_proven_compares n t listing Hwf Hnames)
    as (S & HS & Hrun).
  set (D := extract_mlw_filenames_from_directory listing ∖ {["twoHonestParties.mlw"]}).
  exists S, D. rewrite Hrun. unfold compare_filenames. fold D.
  destruct (decide (S = D)) as [Heq|Hne].
  - eexists _, _. split_and!; [done|apply relevant_directory_filenames_spec|done|done| |done].
    intros _. split; [done|]. intros lines. split.
    + intros (? & -> & (? & -> & ->%shows_nil_inv)%shows_line_inv)%shows_line_inv.
      done.
    + intros ->. by repeat constructor.
  - eexists _, _. split_and!; [done|apply relevant_directory_filenames_spec|done|..].
    + simpl. split; [done|]. intros ?. done.
    + done.
    + intros _. split_and!; [done..| | |].
      * destruct (decide (S ∖ D = ∅)) as [H1|]; [|by left]. right.
        intros H2. apply Hne. by apply differences_empty.
      * apply shows_total.
      * intros lines (rest & -> & Hrest)%shows_line_inv.
        apply shows_print_extra in Hrest as (l1 & rest1 & -> & Hl1 & Hrest).
        rewrite <-(app_nil_r (print_extra _ (D ∖ S))) in Hrest.
        apply shows_print_extra in Hrest as (l2 & rest2 & -> & Hl2 & ->%shows_nil_inv).
        exists l1, l2. by rewrite app_nil_r.
Qed.

Lemma check_whyml_files_proven_pass_iff_witness :
  ∃ (S D : gset string) out o,
    (∀ x, x ∈ S ↔ session_name session_paths x)
    ∧ (∀ x, x ∈ D ↔
         directory_name ["A.mlw"; "C.mlw"; "twoHonestParties.mlw"; "notes.txt"] x)
    ∧ check_whyml_files_proven 3 session_paths
        ["A.mlw"; "C.mlw"; "twoHonestParties.mlw"; "notes.txt"] = Some (out, o)
    ∧ (exit_status o = 0%Z ↔ S = D)
    ∧ (S = D →
       o = Returns
       ∧ ∀ lines, shows out lines ↔
           lines = ["Proof availability check PASSED:";
                    "Apart from twoHonestParties.mlw, all *.mlw files in the directory have a proof in the proof tree and vice versa."])
    ∧ (S ≠ D →
       o = Exits 1 ∧ exit_status o = 1%Z
       ∧ (S ∖ D ≠ ∅ ∨ D ∖ S ≠ ∅)
       ∧ (∃ lines, shows out lines)
       ∧ ∀ lines, shows out lines →
           ∃ l1 l2,
             lines = "Proof availability check FAILED:" :: l1 ++ l2
             ∧ prints_set "*.mlw files in proof tree but not in directory:" (S ∖ D) l1
             ∧ prints_set "*.mlw files in directory but not in proof tree:" (D ∖ S) l2).
Proof.
  apply (check_whyml_files_proven_pass_iff 3 session_paths
           ["A.mlw"; "C.mlw"; "twoHonestParties.mlw"; "notes.txt"]).
  - apply (iter_well_formed _ _ [0; 1; 2; 3; 4]). vm_compute. reflexivity.
  - intros r e Hr He Ht.
    assert (r ∈ [0; 1; 2; 3; 4]) as Hin.
    { apply (iter_descendant (store session_paths) 3 0); [vm_compute; reflexivity|].
      exact Hr. }
    apply elem_of_cons in Hin as [->|Hin];
      [vm_compute in He; injection He as <-; discriminate Ht|].
    apply elem_of_cons in Hin as [->|Hin];
      [vm_compute in He; injection He as <-; exists "A.mlw"; reflexivity|].
    apply elem_of_cons in Hin as [->|Hin];
      [vm_compute in He; injection He as <-; discriminate Ht|].
    apply elem_of_cons in Hin as [->|Hin];
      [vm_compute in He; injection He as <-; exists ".."; reflexivity|].
    apply elem_of_cons in Hin as [->|Hin];
      [vm_compute in He; injection He as <-; exists "B.mlw"; reflexivity|].
    by apply elem_of_nil in Hin.
Defined.

End CoverageTheorems.

(** ** Properties of the separation audit *)

Module SeparationTheorems.
Import PyStr PyStrFacts Separation SeparationSpec.

Lemma current_module_snoc ls l :
  current_module (ls ++ [l])
  = match module_match l with Some m => Some m | None => current_module ls end.
Proof.
  induction ls as [|l' ls IH]; simpl.
  - by destruct (module_match l).
  - rewrite IH. destruct (module_match l); [done|].
    by destruct (current_module ls).
Qed.

Lemma module_match_nonempty line m : module_match line = Some m → m ≠ EmptyString.
Proof.
  unfold module_match. destruct (startswith line "module"); [|done].
  destruct (decide _) as [[_ Hne]|]; [|done]. by intros [= <-].
Qed.

Lemma current_module_nonempty ls m : current_module ls = Some m → m ≠ EmptyString.
Proof.
  induction ls as [|l ls IH]; simpl; [done|].
  destruct (current_module ls); [by intros [= <-]; apply IH|].
  apply module_match_nonempty.
Qed.

Lemma scan_state file_path ls :
  (foldl (scan_line file_path) (None, []) ls).1 = current_module ls.
Proof.
  induction ls as [|l ls IH] using rev_ind; [done|].
  rewrite foldl_snoc, current_module_snoc, <-IH. unfold scan_line.
  destruct (contains "val lemma" l || contains "axiom" l); [|done].
  destruct (match module_match l with Some m => Some m | None => _ end); [|done].
  by destruct (_ && _).
Qed.

(** What one line adds to the errors. *)
Lemma errors_after_snoc file_path ls l :
  errors_after file_path (ls ++ [l])
  = errors_after file_path ls
    ++ match current_module (ls ++ [l]) with
       | Some m =>
           if declares l && negb (endswith m "Lemmas") && negb (endswith m "Spec")
           then [error_A file_path m] else []
       | None => []
       end.
Proof.
  unfold errors_after. rewrite foldl_snoc.
  pose proof (current_module_nonempty (ls ++ [l])) as Hne.
  rewrite current_module_snoc in *. rewrite <-(scan_state file_path ls) in *.
  unfold scan_line at 1. unfold declares.
  destruct (foldl (scan_line file_path) (None, []) ls) as [cur errs]. simpl in *.
  destruct (match module_match l with Some m => Some m | None => cur end)
    as [m|]; [|by rewrite app_nil_r; destruct (_ || _)].
  rewrite bool_decide_eq_true_2 by (by apply Hne). simpl.
  destruct (contains "val lemma" l || contains "axiom" l); simpl;
    [|by rewrite app_nil_r].
  destruct (negb (endswith m "Lemmas") && negb (endswith m "Spec")); simpl;
    [done|by rewrite app_nil_r].
Qed.

Lemma errors_after_app file_path ls ls' :
  ∃ later, errors_after file_path (ls ++ ls') = errors_after file_path ls ++ later.
Proof.
  induction ls' as [|l ls' IH] using rev_ind.
  - exists []. by rewrite !app_nil_r.
  - destruct IH as [later IH].
    rewrite (assoc_L (++) ls ls' [l]), errors_after_snoc, IH.
    eexists. rewrite <-(assoc_L (++)). reflexivity.
Qed.

Lemma current_module_Some ls m :
  current_module ls = Some m → ∃ j lj, ls !! j = Some lj ∧ module_match lj = Some m.
Proof.
  induction ls as [|l ls IH]; simpl; [done|].
  destruct (current_module ls) as [m'|].
  - intros [= ->]. destruct (IH eq_refl) as (j & lj & ? & ?). by exists (S j), lj.
  - intros Hl. by exists 0, l.
Qed.

Lemma errors_after_nil file_path ls :
  (∀ i j li lj, ls !! i = Some li → ls !! j = Some lj →
     declares li = true → is_Some (module_match lj) → i < j) →
  errors_after file_path ls = [].
Proof.
  induction ls as [|l ls IH] using rev_ind; intros Hbefore; [done|].
  rewrite errors_after_snoc, IH.
  - destruct (current_module (ls ++ [l])) as [m|] eqn:Hm; [|done].
    destruct (declares l) eqn:Hl; [|done].
    destruct (current_module_Some _ _ Hm) as (j & lj & Hj & Hlj).
    assert (length ls < j) as Hlt.
    { eapply (Hbefore (length ls) j l lj); [|done|done|by eexists].
      by rewrite lookup_app_r, Nat.sub_diag by lia. }
    apply lookup_lt_Some in Hj. rewrite length_app in Hj. simpl in Hj. lia.
  - intros i j li lj Hi Hj. apply Hbefore; by apply lookup_app_l_Some.
Qed.

(** The tests on strings, in terms of concatenation. *)
Lemma startswith_spec s p : startswith s p = true ↔ ∃ b, s = p +:+ b.
Proof.
  revert s. induction p as [|c p IH]; intros s.
  - split; [by exists s|by destruct s].
  - destruct s as [|c' s]; simpl.
    + split; [done|by intros [? [=]]].
    + rewrite andb_true_iff, IH. split.
      * intros [->%Ascii.eqb_eq [b ->]]. by exists b.
      * intros [b [= -> ->]]. split; [apply Ascii.eqb_refl|by exists b].
Qed.

Lemma contains_spec needle s :
  contains needle s = true ↔ ∃ a b, s = a +:+ needle +:+ b.
Proof.
  induction s as [|c s IH]; cbn [contains]; rewrite orb_true_iff, startswith_spec.
  - split.
    + intros [[b Hb]|[=]]. by exists "", b.
    + intros ([|??] & b & Hab); [left; by exists b|done].
  - rewrite IH. split.
    + intros [[b Hb]|(a & b & ->)]; [by exists "", b|by exists (String c a), b].
    + intros ([|c' a] & b & Hab); [left; by exists b|right].
      injection Hab as -> ->. by exists a, b.
Qed.

Lemma contains_tail needle c s :
  contains needle (String c s) = false → contains needle s = false.
Proof. simpl. by intros [_ ?]%orb_false_iff. Qed.

Lemma startswith_nil s : startswith s "" = true.
Proof. by destruct s. Qed.

Lemma startswith_app s t : startswith (s +:+ t) s = true.
Proof.
  induction s as [|c s IH]; simpl; [by destruct t|].
  by rewrite Ascii.eqb_refl.
Qed.

Lemma contains_app needle a b : contains needle (a +:+ needle +:+ b) = true.
Proof.
  induction a as [|c a IH].
  - change (EmptyString +:+ needle +:+ b) with (needle +:+ b).
    pose proof (startswith_app needle b) as Hs.
    destruct (needle +:+ b); cbn [contains]; by rewrite Hs.
  - change (String c a +:+ needle +:+ b) with (String c (a +:+ needle +:+ b)).
    cbn [contains]. rewrite IH. apply orb_true_r.
Qed.

(** Inside a comment, the scan drops everything up to the nearest close
    marker. *)
Lemma strip_comments_inside body post :
  contains "*)" body = false →
  strip_comments true (body +:+ "*)" +:+ post) = strip_comments false post.
Proof.
  induction body as [|c body IH]; intros Hbody; [done|].
  change (String c body +:+ "*)" +:+ post)
    with (String c (body +:+ "*)" +:+ post)).
  cbn [strip_comments]. rewrite <-(IH (contains_tail _ _ _ Hbody)).
  destruct body as [|c' body]; simpl.
  - by rewrite andb_false_r.
  - destruct (Ascii.eqb_spec c "*") as [->|]; [|done].
    destruct (Ascii.eqb_spec c' ")") as [->|]; [|done].
    cbn in Hbody. by rewrite startswith_nil in Hbody.
Qed.

(** Before the first open marker, the scan copies the text. *)
Lemma strip_comments_outside pre rest :
  contains "(*" pre = false →
  strip_comments false (pre +:+ "(*" +:+ rest)
  = pre +:+ strip_comments false ("(*" +:+ rest).
Proof.
  induction pre as [|c pre IH]; intros Hpre; [done|].
  change (String c pre +:+ "(*" +:+ rest)
    with (String c (pre +:+ "(*" +:+ rest)).
  cbn [strip_comments]. rewrite (IH (contains_tail _ _ _ Hpre)).
  destruct pre as [|c' pre]; simpl.
  - destruct (Ascii.eqb_spec c "("); done.
  - destruct (Ascii.eqb_spec c "(") as [->|]; [|done].
    destruct (Ascii.eqb_spec c' "*") as [->|]; [|done].
    cbn in Hpre. by rewrite startswith_nil in Hpre.
Qed.

(** C10. When every line of the comment-stripped text that contains
    [val lemma] or [axiom] comes before every line that matches a module
    declaration, check A reports nothing. *)
Theorem check_lemma_axiom_in_lemmas_before_modules file_path content :
  (∀ i j li lj,
     splitlines (remove_comments content) !! i = Some li →
     splitlines (remove_comments content) !! j = Some lj →
     declares li = true → is_Some (module_match lj) → i < j) →
  check_lemma_axiom_in_lemmas file_path content = [].
Proof. intros Hbefore. by apply errors_after_nil. Qed.

Lemma check_lemma_axiom_in_lemmas_before_modules_witness :
  check_lemma_axiom_in_lemmas "f.mlw" source_axiom_first = [].
Proof.
  apply (check_lemma_axiom_in_lemmas_before_modules "f.mlw" source_axiom_first).
  assert (splitlines (remove_comments source_axiom_first)
          = ["axiom a : true"; "val lemma b"; "module Foo"; "end"]) as ->
    by (vm_compute; reflexivity).
  intros i j li lj Hi Hj Hd [m Hm].
  destruct j as [|[|[|[|j]]]]; simpl in Hj; try discriminate Hj;
    injection Hj as <-; vm_compute in Hm; try discriminate Hm.
  destruct i as [|[|[|[|i]]]]; simpl in Hi; try discriminate Hi;
    injection Hi as <-; vm_compute in Hd; try discriminate Hd; lia.
Defined.

(** The first comment of a text goes with all it holds; the text after it
    is stripped in the same way. *)
Lemma remove_comments_first_comment pre body post :
  contains "(*" pre = false →
  contains "*)" body = false →
  remove_comments (pre +:+ "(*" +:+ body +:+ "*)" +:+ post)
  = pre +:+ remove_comments post.
Proof.
  intros Hpre Hbody. unfold remove_comments.
  rewrite (strip_comments_outside _ _ Hpre). f_equal.
  change ("(*" +:+ body +:+ "*)" +:+ post)
    with (String "(" (String "*" (body +:+ "*)" +:+ post))).
  cbn [strip_comments]. rewrite !Ascii.eqb_refl, (contains_app "*)" body post).
  simpl. by apply strip_comments_inside.
Qed.

Lemma remove_comments_no_comment s : no_comment s = true → remove_comments s = s.
Proof.
  unfold remove_comments. induction s as [|c s IH]; [done|].
  cbn [no_comment strip_comments]. intros [Hhere Hs]%andb_true_iff.
  rewrite (IH Hs). destruct s as [|c' s]; [done|].
  destruct (Ascii.eqb_spec c "(") as [->|]; [|done].
  destruct (Ascii.eqb_spec c' "*") as [->|]; [|done].
  cbn in Hhere. rewrite startswith_nil in Hhere. simpl in Hhere.
  apply negb_true_iff in Hhere. by rewrite Hhere.
Qed.

(** [remove_comments] yields what [strips] allows, and nothing else is
    allowed. *)
Lemma strips_sound s out : strips s out → remove_comments s = out.
Proof.
  induction 1 as [s Hs|pre body post out Hpre Hbody _ IH].
  - by apply remove_comments_no_comment.
  - by rewrite remove_comments_first_comment, IH.
Qed.

Lemma append_assoc (a b c : string) : (a +:+ b) +:+ c = a +:+ b +:+ c.
Proof.
  induction a as [|x a IH]; [done|].
  change (String x ((a +:+ b) +:+ c) = String x (a +:+ b +:+ c)). by rewrite IH.
Qed.

Lemma length_append (a b : string) :
  String.length (a +:+ b) = String.length a + String.length b.
Proof.
  induction a as [|x a IH]; [done|].
  change (S (String.length (a +:+ b)) = S (String.length a + String.length b)).
  by rewrite IH.
Qed.

(** A text that holds a non-empty [needle] splits at its first occurrence. *)
Lemma contains_first needle s :
  needle ≠ EmptyString → contains needle s = true →
  ∃ a b, s = a +:+ needle +:+ b ∧ contains needle a = false.
Proof.
  intros Hne. induction s as [|c s IH]; cbn [contains].
  - rewrite orb_false_r. intros [b Hb]%startswith_spec.
    by destruct needle.
  - destruct (startswith (String c s) needle) eqn:Hstart.
    + intros _. apply startswith_spec in Hstart as [b Hb].
      exists "", b. split; [done|]. by destruct needle.
    + intros (a & b & -> & Ha)%IH. exists (String c a), b. split; [done|].
      cbn [contains]. rewrite Ha, orb_false_r.
      destruct (startswith (String c a) needle) eqn:Hstart'; [|done].
      apply startswith_spec in Hstart' as [b' Hb'].
      assert (startswith (String c (a +:+ needle +:+ b)) needle = true) as Hs.
      { apply startswith_spec. exists (b' +:+ needle +:+ b).
        change (String c (a +:+ needle +:+ b))
          with (String c a +:+ needle +:+ b).
        by rewrite Hb', append_assoc. }
      congruence.
Qed.

(** One more character before a stripped text, when no comment starts
    with it. *)
Lemma strips_cons c s out :
  startswith (String c s) "(*" && contains "*)" (slice_from 2 (String c s)) = false →
  strips s out → strips (String c s) (String c out).
Proof.
  intros Hhere Hs. destruct Hs as [s Hs|pre body post out Hpre Hbody Hpost].
  - apply strips_done. cbn [no_comment]. by rewrite Hhere, Hs.
  - apply (strips_comment (String c pre)); [|done..].
    cbn [contains]. rewrite Hpre, orb_false_r.
    destruct (startswith (String c pre) "(*") eqn:Hstart; [|done].
    apply startswith_spec in Hstart as [b Hb]. injection Hb as -> ->.
    rewrite <-Hhere. symmetry.
    change (String "(" (("*" +:+ b) +:+ "(*" +:+ body +:+ "*)" +:+ post))
      with (String "(" (String "*" (b +:+ "(*" +:+ body +:+ "*)" +:+ post))).
    cbn [startswith slice_from]. rewrite !Ascii.eqb_refl, startswith_nil.
    rewrite <-(append_assoc b "(*"), <-(append_assoc _ body).
    apply contains_app.
Qed.

Lemma strips_total s : strips s (remove_comments s).
Proof.
  remember (String.length s) as n eqn:Hn. revert s Hn.
  induction (lt_wf n) as [n _ IH]. intros s ->.
  destruct s as [|c s]; [by apply strips_done|].
  destruct (startswith (String c s) "(*"
            && contains "*)" (slice_from 2 (String c s))) eqn:Hhere.
  - apply andb_true_iff in Hhere as [[b Hb]%startswith_spec Hclose].
    injection Hb as -> ->. cbn in Hclose.
    destruct (contains_first "*)" b) as (body & post & -> & Hbody); [done..|].
    change ("*" +:+ body +:+ "*)" +:+ post)
      with (String "*" (body +:+ "*)" +:+ post)) in *.
    assert (remove_comments (String "(" (String "*" (body +:+ "*)" +:+ post)))
            = remove_comments post) as ->
      by exact (remove_comments_first_comment "" body post eq_refl Hbody).
    refine (strips_comment "" body post _ eq_refl Hbody _).
    eapply IH; [|done].
    change (String.length post
            < S (S (String.length (body +:+ "*)" +:+ post)))).
    rewrite !length_append. simpl. lia.
  - assert (remove_comments (String c s) = String c (remove_comments s)) as ->.
    { unfold remove_comments. cbn [strip_comments]. destruct s as [|c' s]; [done|].
      destruct (Ascii.eqb_spec c "(") as [->|]; [|done].
      destruct (Ascii.eqb_spec c' "*") as [->|]; [|done].
      cbn in Hhere. rewrite startswith_nil in Hhere. simpl in Hhere.
      by rewrite Hhere. }
    apply strips_cons; [done|]. eapply IH; [|done]. simpl. lia.
Qed.

(** C7. Let [stripped] be the file text without its block comments (a
    comment running from an open marker to the nearest close marker after
    it, across lines), [line] a line of [stripped] that contains [val lemma]
    or [axiom], and [m] the current module there: the name declared by the
    last line of [stripped] up to this one that declares a module, a
    declaration inside a comment of the file not counting.  Scanning the line
    adds an error, the one naming [m], if and only if [m] ends neither in
    [Lemmas] nor in [Spec]; otherwise it adds nothing.  The errors reported
    so far are kept, and the errors after this line begin the result of
    check A on the file. *)
Theorem check_lemma_axiom_in_lemmas_line file_path content stripped pre line post m :
  strips content stripped →
  splitlines stripped = pre ++ line :: post →
  declares line = true →
  current_module (pre ++ [line]) = Some m →
  ((∃ err, errors_after file_path (pre ++ [line])
           = errors_after file_path pre ++ [err])
   ↔ endswith m "Lemmas" = false ∧ endswith m "Spec" = false)
  ∧ errors_after file_path (pre ++ [line])
    = errors_after file_path pre
      ++ (if endswith m "Lemmas" || endswith m "Spec"
          then [] else [error_A file_path m])
  ∧ ∃ later, check_lemma_axiom_in_lemmas file_path content
             = errors_after file_path (pre ++ [line]) ++ later.
Proof.
  intros Hstrips%strips_sound Hlines Hdecl Hcur.
  rewrite errors_after_snoc, Hcur, Hdecl. simpl.
  split_and!.
  - destruct (endswith m "Lemmas"), (endswith m "Spec"); simpl; split;
      try (by intros [[=] [=]] || by intros [? ?]).
    + intros [err Herr]. rewrite app_nil_r in Herr.
      apply (f_equal length) in Herr. rewrite length_app in Herr. simpl in Herr. lia.
    + intros [err Herr]. rewrite app_nil_r in Herr.
      apply (f_equal length) in Herr. rewrite length_app in Herr. simpl in Herr. lia.
    + intros [err Herr]. rewrite app_nil_r in Herr.
      apply (f_equal length) in Herr. rewrite length_app in Herr. simpl in Herr. lia.
    + intros _. by eexists.
  - by destruct (endswith m "Lemmas"), (endswith m "Spec").
  - unfold check_lemma_axiom_in_lemmas. fold (errors_after file_path
      (splitlines (remove_comments content))).
    rewrite Hstrips, Hlines, (cons_middle line pre post), (assoc_L (++)).
    destruct (errors_after_app file_path (pre ++ [line]) post) as [later ->].
    exists later. by rewrite errors_after_snoc, Hcur, Hdecl.
Qed.

Lemma check_lemma_axiom_in_lemmas_line_witness :
  ((∃ err, errors_after "f.mlw" (["module Foo"; ""] ++ ["axiom a : true"])
           = errors_after "f.mlw" ["module Foo"; ""] ++ [err])
   ↔ endswith "Foo" "Lemmas" = false ∧ endswith "Foo" "Spec" = false)
  ∧ errors_after "f.mlw" (["module Foo"; ""] ++ ["axiom a : true"])
    = errors_after "f.mlw" ["module Foo"; ""]
      ++ (if endswith "Foo" "Lemmas" || endswith "Foo" "Spec"
          then [] else [error_A "f.mlw" "Foo"])
  ∧ ∃ later, check_lemma_axiom_in_lemmas "f.mlw" source_module_in_comment
             = errors_after "f.mlw" (["module Foo"; ""] ++ ["axiom a : true"])
               ++ later.
Proof.
  apply (check_lemma_axiom_in_lemmas_line "f.mlw" source_module_in_comment
           (unlines ["module Foo"; ""; "axiom a : true"])
           ["module Foo"; ""] "axiom a : true" [] "Foo").
  - apply (strips_comment (unlines ["module Foo"])
             (String LF (String.append "module BarLemmas" (String LF "")))
             (String LF (String.append "axiom a : true" (String LF "")))
             (String LF (String.append "axiom a : true" (String LF ""))));
      [vm_compute; reflexivity..|].
    apply strips_done. vm_compute. reflexivity.
  - vm_compute. reflexivity.
  - vm_compute. reflexivity.
  - vm_compute. reflexivity.
Defined.

(** C9, as stated, fails twice: the match is not greedy (the text between
    two comments stays), and check B scans the text as read, so that a
    module named inside a comment is reported. *)
Lemma comments_not_greedy_nor_stripped_for_pairing :
  remove_comments "(*a*)x(*b*)" = "x"
  ∧ remove_comments_greedy "(*a*)x(*b*)" = ""
  ∧ check_proofs_for_lemmas "f.mlw" "(* module FooLemmas *)"
    = ["Error in f.mlw: No corresponding Proofs module for Lemmas module 'FooLemmas'"].
Proof. split_and!; vm_compute; reflexivity. Qed.

(** C9, amended. Check A works on the text stripped by [remove_comments],
    and that text is the file text without its block comments, where a
    comment runs from an open marker to the nearest close marker after it,
    across lines and without nesting: [remove_comments] yields the one text
    that [strips] allows.  Two file texts that are the same outside their
    comments therefore get the same errors from check A: what a comment
    holds never produces an error there. *)
Theorem remove_comments_strips file_path content :
  strips content (remove_comments content)
  ∧ (∀ out, strips content out → out = remove_comments content)
  ∧ check_lemma_axiom_in_lemmas file_path content
    = errors_after file_path (splitlines (remove_comments content))
  ∧ (∀ content', strips content' (remove_comments content) →
       check_lemma_axiom_in_lemmas file_path content'
       = check_lemma_axiom_in_lemmas file_path content).
Proof.
  split_and!.
  - apply strips_total.
  - intros out Hout. symmetry. by apply strips_sound.
  - done.
  - intros content' Hstrips. unfold check_lemma_axiom_in_lemmas.
    by rewrite (strips_sound _ _ Hstrips).
Qed.

Lemma remove_comments_strips_witness :
  remove_comments source_commented
  = unlines ["module Foo"; ""; "end "]
  ∧ check_lemma_axiom_in_lemmas "f.mlw" source_commented
    = check_lemma_axiom_in_lemmas "f.mlw"
        (unlines ["module Foo"; "(**)"; "end (* axiom c *)"]).
Proof.
  destruct (remove_comments_strips "f.mlw"
              (unlines ["module Foo"; "(**)"; "end (* axiom c *)"]))
    as (_ & _ & _ & Hsame).
  destruct (remove_comments_strips "f.mlw" source_commented)
    as (_ & Hone & _ & _).
  assert (strips source_commented (unlines ["module Foo"; ""; "end "])) as Hs.
  { apply (strips_comment (unlines ["module Foo"])
             (String.append " axiom a" (String LF "   (* val lemma b "))
             (String LF (String.append "end (* of Foo *)" (String LF "")))
             (String LF (String.append "end " (String LF ""))));
      [vm_compute; reflexivity..|].
    apply (strips_comment (String LF "end ") " of Foo " (String LF "")
             (String LF "")); [vm_compute; reflexivity..|].
    apply strips_done. vm_compute. reflexivity. }
  split.
  - symmetry. exact (Hone _ Hs).
  - apply Hsame.
    replace (remove_comments (unlines ["module Foo"; "(**)"; "end (* axiom c *)"]))
      with (unlines ["module Foo"; ""; "end "]) by (vm_compute; reflexivity).
    exact Hs.
Defined.

(** C8 (violated by the code). Check B reports a [Lemmas] module whose
    [Proofs] module is declared with the very ascription asked for, when the
    name holds [Lemmas] twice; and it accepts an ascription to another
    interface whose name merely starts with the name of the [Lemmas]
    module. *)
Theorem check_proofs_for_lemmas_mismatch :
  check_proofs_for_lemmas "f.mlw"
    (unlines ["module LemmasALemmas"; "module LemmasAProofs : LemmasALemmas"])
  = ["Error in f.mlw: No corresponding Proofs module for Lemmas module 'LemmasALemmas'"]
  ∧ check_proofs_for_lemmas "f.mlw"
      (unlines ["module FooLemmas"; "module FooProofs : FooLemmasExtra"])
    = [].
Proof. split; vm_compute; reflexivity. Qed.

End SeparationTheorems.

(** ** Further properties of the pruner *)

Module PrunerExtras.
Import ET ETSpec ETFacts Pruner PrunerSpec PrunerFacts MoreSpec.

(** X1. The root is never pruned, whatever its tag: [findall(".//goal")]
    leaves the root out, so that the pruner returns a tree in which the root
    element is as it was, even when it is a goal with several
    transformations. *)
Theorem clean_proof_tree_root_untouched n t e :
  well_formed n t →
  store t !! getroot t = Some e →
  ∃ t', clean_proof_tree n t = Some t'
        ∧ getroot t' = getroot t
        ∧ store t' !! getroot t = Some e.
Proof.
  intros Hwf He.
  destruct (clean_proof_tree_spec _ _ Hwf) as (goals & Hgoals & Hrun).
  eexists. split; [exact Hrun|]. simpl. split; [done|].
  rewrite lookup_prune_at, He. simpl.
  destruct (decide (getroot t ∈ goals)) as [Hin|]; [|done].
  apply Hgoals in Hin as [Hd _]. by apply (tree_at_acyclic _ _ _ Hwf) in Hd.
Qed.

Lemma clean_proof_tree_root_untouched_witness :
  ∃ t', clean_proof_tree 2 session_root_goal = Some t'
        ∧ getroot t' = 0
        ∧ store t' !! 0 = Some (mkElement "goal" ∅ [1; 2]).
Proof.
  apply (clean_proof_tree_root_untouched 2 session_root_goal).
  - apply (iter_well_formed _ _ [0; 1; 2]). vm_compute. reflexivity.
  - vm_compute. reflexivity.
Defined.

(** X2. In the tree the pruner returns, a goal below the root that has a
    child tagged [transf] has no other child tagged [transf] or [proof]:
    every such child is its first [transf] child. *)
Theorem clean_proof_tree_transf_alone n t :
  well_formed n t →
  ∃ t', clean_proof_tree n t = Some t'
    ∧ ∀ g e' k c,
        goal_node t' g →
        store t' !! g = Some e' →
        first_transf (tags (store t')) (children e') = Some k →
        c ∈ children e' →
        is_proof_or_transf (tags (store t')) c →
        c = k.
Proof.
  intros Hwf.
  destruct (clean_proof_tree_spec _ _ Hwf) as (goals & Hgoals & Hrun).
  eexists. split; [exact Hrun|]. simpl.
  intros g e' k c [Hd Ht] He' Hk Hc Hpt. simpl in Hd, Ht.
  assert (g ∈ goals) as Hg.
  { apply Hgoals. split.
    - eapply descendant_shrinks; [apply shrinks_prune_at|exact Hd].
    - by rewrite tags_prune_at in Ht. }
  rewrite lookup_prune_at in He'.
  destruct (store t !! g) as [e|]; simplify_eq/=.
  destruct (decide (g ∈ goals)); [|done]. simpl in *.
  rewrite (first_transf_ext _ (tags (store t))) in Hk by apply tags_prune_at.
  unfold pruned in *.
  destruct (first_transf (tags (store t)) (children e)) as [k0|] eqn:Hk0.
  - rewrite (first_transf_filter_kept _ _ _ Hk0) in Hk. simplify_eq.
    apply list_elem_of_filter in Hc as [[?|Hnot] _]; [done|].
    destruct Hnot. unfold is_proof_or_transf, is_proof, is_transf in *.
    by rewrite !tags_prune_at in Hpt.
  - congruence.
Qed.

Lemma clean_proof_tree_transf_alone_witness :
  ∃ t', clean_proof_tree 5 session_mixed = Some t'
    ∧ ∀ g e' k c,
        goal_node t' g →
        store t' !! g = Some e' →
        first_transf (tags (store t')) (children e') = Some k →
        c ∈ children e' →
        is_proof_or_transf (tags (store t')) c →
        c = k.
Proof.
  apply (clean_proof_tree_transf_alone 5 session_mixed).
  apply (iter_well_formed _ _ [0; 1; 2; 3; 6; 7; 8; 4; 5]). vm_compute. reflexivity.
Defined.

(** X3. The first loop never selects a proof: whatever the children of the
    goal, [transf_child] is the first child tagged [transf] (or [None]) and
    [proof_child] is [None], so that [child_to_keep] is never a proof. *)
Theorem select_children_never_a_proof h cs :
  Forall (λ c, is_Some (h !! c)) cs →
  select_children h cs None None = Some (first_transf (tags h) cs, None).
Proof.
  intros Hcs. rewrite (select_children_spec (tags h)); [|done..].
  by destruct (first_transf (tags h) cs).
Qed.

Lemma select_children_never_a_proof_witness :
  select_children (store session_two_proofs) [2; 3] None None
  = Some (first_transf (tags (store session_two_proofs)) [2; 3], None).
Proof.
  apply (select_children_never_a_proof (store session_two_proofs) [2; 3]).
  constructor; [|constructor; [|constructor]]; vm_compute; by eexists.
Defined.

End PrunerExtras.

(** ** The document type line *)

Module DoctypeExtras.
Import PyStr Doctype.

Lemma split_newline_cons s : ∃ piece pieces, split_newline s = piece :: pieces.
Proof.
  induction s as [|c s (piece & pieces & IH)]; simpl; [by eexists _, _|].
  destruct (Ascii.eqb c LF); [by eexists _, _|]. rewrite IH. by eexists _, _.
Qed.

(** The pieces of a text that starts with a line without line feed. *)
Lemma split_newline_first decl body :
  contains (String LF "") decl = false →
  split_newline (decl +:+ String LF body) = decl :: split_newline body.
Proof.
  induction decl as [|c decl IH]; intros Hdecl; [done|].
  change (String c decl +:+ String LF body)
    with (String c (decl +:+ String LF body)).
  cbn [split_newline]. cbn [contains startswith] in Hdecl.
  apply orb_false_iff in Hdecl as [Hc Hdecl].
  rewrite (IH Hdecl).
  destruct (Ascii.eqb_spec c LF) as [->|]; [|done].
  rewrite Ascii.eqb_refl in Hc. by destruct decl.
Qed.

Lemma join_newline_cons piece pieces :
  pieces ≠ [] →
  join_newline (piece :: pieces) = piece +:+ String LF (join_newline pieces).
Proof. by destruct pieces. Qed.

(** Joining the pieces gives the text back. *)
Lemma join_split_newline s : join_newline (split_newline s) = s.
Proof.
  induction s as [|c s IH]; [done|]. cbn [split_newline].
  destruct (split_newline_cons s) as (piece & pieces & Hs). rewrite Hs in *.
  destruct (Ascii.eqb_spec c LF) as [->|].
  - rewrite join_newline_cons by done. by rewrite IH.
  - destruct pieces as [|piece' pieces].
    + simpl in *. by rewrite IH.
    + rewrite join_newline_cons by done. rewrite join_newline_cons in IH by done.
      by rewrite <-IH.
Qed.

(** X4. When the serialized document starts with a line [decl] (the XML
    declaration) ended by a line feed, [add_doctype] puts the document type
    declaration right after that line, on lines of its own, and leaves the
    rest as it was. *)
Theorem add_doctype_after_first_line decl body :
  contains (String LF "") decl = false →
  add_doctype (decl +:+ String LF body)
  = decl +:+ String LF (DOCTYPE +:+ String LF body).
Proof.
  intros Hdecl. unfold add_doctype, list_insert_at.
  rewrite (split_newline_first _ _ Hdecl).
  change (take 1 (decl :: split_newline body)
          ++ DOCTYPE :: drop 1 (decl :: split_newline body))
    with (decl :: DOCTYPE :: split_newline body).
  destruct (split_newline_cons body) as (piece & pieces & Hbody).
  rewrite join_newline_cons by done. f_equal. f_equal.
  rewrite join_newline_cons by (by rewrite Hbody). f_equal. f_equal.
  apply join_split_newline.
Qed.

Lemma add_doctype_after_first_line_witness :
  add_doctype ("<?xml version='1.0' encoding='utf-8'?>"
               +:+ String LF "<why3session><file /></why3session>")
  = "<?xml version='1.0' encoding='utf-8'?>"
    +:+ String LF (DOCTYPE +:+ String LF "<why3session><file /></why3session>").
Proof.
  apply (add_doctype_after_first_line "<?xml version='1.0' encoding='utf-8'?>").
  vm_compute. reflexivity.
Defined.

End DoctypeExtras.

(** ** Further properties of the coverage audit *)

Module CoverageExtras.
Import ET ETSpec ETFacts PyStr Process Coverage CoverageSpec CoverageTheorems MoreSpec.

(** X6. On a well-formed tree in which every [path] element has a [name],
    [extract_mlw_filenames_from_session] returns, and the set it returns
    holds exactly the names ending in [.mlw] of the [path] elements of the
    tree, at any depth, the root included. *)
Theorem extract_mlw_filenames_from_session_names n t :
  well_formed n t →
  (∀ r e, r = getroot t ∨ descendant (store t) (getroot t) r →
          store t !! r = Some e → tag e = "path" →
          is_Some (attrib e !! "name")) →
  ∃ S, extract_mlw_filenames_from_session n t = Some S
    ∧ ∀ x, x ∈ S ↔
        ∃ r e, (r = getroot t ∨ descendant (store t) (getroot t) r)
               ∧ store t !! r = Some e ∧ tag e = "path"
               ∧ attrib e !! "name" = Some x ∧ endswith x ".mlw" = true.
Proof.
  intros Hwf Hnames. destruct (iter_tree_at _ _ _ Hwf) as [l Hl].
  assert (is_Some (extract_mlw_filenames_from_session n t)) as [S HS].
  { unfold extract_mlw_filenames_from_session. rewrite Hl. simpl.
    apply collect_session_Some. intros r Hr.
    destruct (iter_closed _ _ _ _ _ Hl Hr) as (e & He & _).
    exists e. split; [done|]. intros Ht. eapply Hnames; [|done..].
    by apply (iter_descendant _ _ _ _ _ Hl). }
  exists S. split; [done|]. intros x.
  by apply (extract_mlw_filenames_from_session_spec n).
Qed.

Lemma extract_mlw_filenames_from_session_names_witness :
  ∃ S, extract_mlw_filenames_from_session 3 session_paths = Some S
    ∧ ∀ x, x ∈ S ↔
        ∃ r e, (r = 0 ∨ descendant (store session_paths) 0 r)
               ∧ store session_paths !! r = Some e ∧ tag e = "path"
               ∧ attrib e !! "name" = Some x ∧ endswith x ".mlw" = true.
Proof.
  apply (extract_mlw_filenames_from_session_names 3 session_paths).
  - apply (iter_well_formed _ _ [0; 1; 2; 3; 4]). vm_compute. reflexivity.
  - intros r e Hr He Ht.
    assert (r ∈ [0; 1; 2; 3; 4]) as Hin.
    { apply (iter_descendant (store session_paths) 3 0); [vm_compute; reflexivity|].
      exact Hr. }
    apply elem_of_cons in Hin as [->|Hin];
      [vm_compute in He; injection He as <-; discriminate Ht|].
    apply elem_of_cons in Hin as [->|Hin];
      [vm_compute in He; injection He as <-; exists "A.mlw"; reflexivity|].
    apply elem_of_cons in Hin as [->|Hin];
      [vm_compute in He; injection He as <-; discriminate Ht|].
    apply elem_of_cons in Hin as [->|Hin];
      [vm_compute in He; injection He as <-; exists ".."; reflexivity|].
    apply elem_of_cons in Hin as [->|Hin];
      [vm_compute in He; injection He as <-; exists "B.mlw"; reflexivity|].
    by apply elem_of_nil in Hin.
Defined.

(** X7. A [path] element without a [name], anywhere in the tree, makes
    [elem.attrib['name']] raise: the extraction raises, and so does the audit,
    which then prints no verdict, whatever the directory holds. *)
Theorem check_whyml_files_proven_key_error n t r e listing :
  well_formed n t →
  r = getroot t ∨ descendant (store t) (getroot t) r →
  store t !! r = Some e →
  tag e = "path" →
  attrib e !! "name" = None →
  extract_mlw_filenames_from_session n t = None
  ∧ check_whyml_files_proven n t listing = None.
Proof.
  intros Hwf Hr He Ht Hname. destruct (iter_tree_at _ _ _ Hwf) as [l Hl].
  assert (extract_mlw_filenames_from_session n t = None) as Hnone.
  { unfold extract_mlw_filenames_from_session. rewrite Hl. simpl.
    eapply collect_session_None; [|done..].
    by apply (iter_descendant _ _ _ _ _ Hl). }
  split; [done|]. unfold check_whyml_files_proven. by rewrite Hnone.
Qed.

Lemma check_whyml_files_proven_key_error_witness :
  extract_mlw_filenames_from_session 3 session_nameless_path = None
  ∧ check_whyml_files_proven 3 session_nameless_path ["A.mlw"] = None.
Proof.
  apply (check_whyml_files_proven_key_error 3 session_nameless_path 3
           (mkElement "path" ∅ []) ["A.mlw"]).
  - apply (iter_well_formed _ _ [0; 1; 2; 3]). vm_compute. reflexivity.
  - apply (iter_descendant (store session_nameless_path) 3 0 [0; 1; 2; 3] 3);
      [vm_compute; reflexivity|].
    do 3 (apply elem_of_cons; right). apply elem_of_cons. by left.
  - vm_compute. reflexivity.
  - reflexivity.
  - vm_compute. reflexivity.
Defined.

(** X8. The exemption works on the directory side only.  On a well-formed
    session tree whose [path] elements are named, when some [path] element
    is named [twoHonestParties.mlw], the audit fails, whatever the directory
    holds: it exits with status 1, and in its transcript the FAILED banner is
    followed by the header of the files in the proof tree but not in the
    directory and, under that header and before anything else, by the names
    of the session that the directory side lacks, each once,
    [twoHonestParties.mlw] among them. *)
Theorem check_whyml_files_proven_exempt_in_session n t listing :
  well_formed n t →
  paths_named t →
  session_name t "twoHonestParties.mlw" →
  ∃ out, check_whyml_files_proven n t listing = Some (out, Exits 1)
    ∧ (∃ lines, shows out lines)
    ∧ ∀ lines, shows out lines →
        ∃ names rest,
          lines = "Proof availability check FAILED:"
                    :: "*.mlw files in proof tree but not in directory:"
                    :: names ++ rest
          ∧ "twoHonestParties.mlw" ∈ names
          ∧ NoDup names
          ∧ ∀ x, x ∈ names ↔ session_name t x ∧ ¬ directory_name listing x.
Proof.
  intros Hwf Hnames Hexempt.
  destruct (check_whyml_files_proven_compares n t listing Hwf Hnames)
    as (S & HS & Hrun).
  rewrite Hrun. unfold compare_filenames.
  set (D := extract_mlw_filenames_from_directory listing ∖ {["twoHonestParties.mlw"]}).
  assert (∀ x, x ∈ S ∖ D ↔ session_name t x ∧ ¬ directory_name listing x) as Hdiff.
  { intros x. unfold D.
    by rewrite elem_of_difference, HS, relevant_directory_filenames_spec. }
  assert ("twoHonestParties.mlw" ∈ S ∖ D) as Hin.
  { apply Hdiff. split; [done|]. by intros (_ & _ & ?). }
  destruct (decide (S = D)) as [Heq|Hne].
  - rewrite Heq in Hin. apply elem_of_difference in Hin as [? ?]. done.
  - eexists. split; [done|]. split; [apply shows_total|].
    intros lines (rest & -> & Hrest)%shows_line_inv.
    unfold print_extra in Hrest at 1.
    destruct (decide (S ∖ D ≠ ∅)) as [_|Hempty].
    + simpl in Hrest.
      apply shows_line_inv in Hrest as (rest1 & -> & Hrest).
      apply shows_members_inv in Hrest as (names & rest2 & -> & Hnd & Hmem & _).
      exists names, rest2. split_and!; [done|by apply Hmem|done|].
      intros x. by rewrite Hmem.
    + apply dec_stable in Hempty. rewrite Hempty in Hin.
      by apply not_elem_of_empty in Hin.
Qed.

Lemma check_whyml_files_proven_exempt_in_session_witness :
  ∃ out, check_whyml_files_proven 2 session_exempt_proved
           ["A.mlw"; "twoHonestParties.mlw"] = Some (out, Exits 1)
    ∧ (∃ lines, shows out lines)
    ∧ ∀ lines, shows out lines →
        ∃ names rest,
          lines = "Proof availability check FAILED:"
                    :: "*.mlw files in proof tree but not in directory:"
                    :: names ++ rest
          ∧ "twoHonestParties.mlw" ∈ names
          ∧ NoDup names
          ∧ ∀ x, x ∈ names ↔
              session_name session_exempt_proved x
              ∧ ¬ directory_name ["A.mlw"; "twoHonestParties.mlw"] x.
Proof.
  apply (check_whyml_files_proven_exempt_in_session 2 session_exempt_proved
           ["A.mlw"; "twoHonestParties.mlw"]).
  - apply (iter_well_formed _ _ [0; 1; 2]). vm_compute. reflexivity.
  - intros r e Hr He Ht.
    assert (r ∈ [0; 1; 2]) as Hin.
    { apply (iter_descendant (store session_exempt_proved) 2 0);
        [vm_compute; reflexivity|exact Hr]. }
    apply elem_of_cons in Hin as [->|Hin];
      [vm_compute in He; injection He as <-; discriminate Ht|].
    apply elem_of_cons in Hin as [->|Hin];
      [vm_compute in He; injection He as <-; exists "A.mlw"; reflexivity|].
    apply elem_of_cons in Hin as [->|Hin];
      [vm_compute in He; injection He as <-;
       exists "twoHonestParties.mlw"; reflexivity|].
    by apply elem_of_nil in Hin.
  - exists 2, (mkElement "path" {["name" := "twoHonestParties.mlw"]} []).
    split_and!.
    + apply (iter_descendant (store session_exempt_proved) 2 0 [0; 1; 2] 2);
        [vm_compute; reflexivity|].
      do 2 (apply elem_of_cons; right). apply elem_of_cons. by left.
    + vm_compute. reflexivity.
    + reflexivity.
    + vm_compute. reflexivity.
    + by exists "twoHonestParties".
Defined.

(** X9. Of the directory listing only the set of its names ending in
    [.mlw] other than [twoHonestParties.mlw] counts: two listings with the
    same such names make the audit end the same way and print the same
    banner, the same headers and, under each header, the names of the same
    set; order, repetitions, other files and the presence of the exempted
    file change nothing in that.  (The order in which the names of a set
    come out is left open by [Members], in both runs.) *)
Theorem check_whyml_files_proven_listing fuel tree listing listing' :
  (∀ x, mlw_name x → x ≠ "twoHonestParties.mlw" →
        (x ∈ listing ↔ x ∈ listing')) →
  check_whyml_files_proven fuel tree listing
  = check_whyml_files_proven fuel tree listing'.
Proof.
  intros Hsame. unfold check_whyml_files_proven.
  destruct (extract_mlw_filenames_from_session fuel tree) as [S|]; simpl; [|done].
  f_equal. unfold compare_filenames.
  assert (extract_mlw_filenames_from_directory listing ∖ {["twoHonestParties.mlw"]}
          = extract_mlw_filenames_from_directory listing' ∖ {["twoHonestParties.mlw"]})
    as ->; [|done].
  apply set_eq. intros x. rewrite !relevant_directory_filenames_spec.
  unfold directory_name.
  split; intros (Hx & Hend & Hne); (split_and!; [|done..]);
    by apply (Hsame x Hend Hne).
Qed.

Lemma check_whyml_files_proven_listing_witness :
  check_whyml_files_proven 3 session_paths
    ["B.mlw"; "notes.txt"; "A.mlw"; "B.mlw"; "twoHonestParties.mlw"]
  = check_whyml_files_proven 3 session_paths ["A.mlw"; "B.mlw"].
Proof.
  apply (check_whyml_files_proven_listing 3 session_paths).
  intros x Hend%endswith_mlw_name Hne. rewrite !elem_of_cons, !elem_of_nil.
  split.
  - intros [->|[->|[->|[->|[->|[]]]]]]; auto. by vm_compute in Hend.
  - intros [->|[->|[]]]; auto.
Defined.

End CoverageExtras.

(** ** Further properties of the separation audit *)

Module SeparationExtras.
Import PyStr Process Separation SeparationSpec SeparationTheorems MoreSpec.

Lemma collect_file_errors directory : ∀ errors,
  foldl (λ errors file,
           if endswith file.1 ".mlw"
           then (errors ++ check_lemma_axiom_in_lemmas file.1 file.2)
                  ++ check_proofs_for_lemmas file.1 file.2
           else errors)
        errors directory
  = errors ++ concat (file_errors <$> directory).
Proof.
  induction directory as [|file directory IH]; intros errors; simpl.
  - by rewrite app_nil_r.
  - rewrite IH. unfold file_errors at 2.
    destruct (endswith file.1 ".mlw"); simpl; [|done].
    by rewrite <-!(assoc_L (++)).
Qed.

Lemma concat_nil {A} (ls : list (list A)) :
  concat ls = [] ↔ ∀ l, l ∈ ls → l = [].
Proof.
  induction ls as [|l ls IH]; simpl.
  - split; [by intros _ ? ?%elem_of_nil|done].
  - split.
    + intros [-> Hls]%app_eq_nil l' [->|?]%elem_of_cons; [done|]. by apply IH.
    + intros Hall. rewrite (Hall l) by (by left). simpl. apply IH.
      intros l' ?. apply Hall. by right.
Qed.

(** X10. [check_whyml_files] passes (it returns, exit status 0) exactly when
    every [.mlw] file of the directory gets no error from check A and none
    from check B, files of other kinds being ignored; otherwise it prints the
    two banner lines followed by every error, file after file in the order of
    the listing and check A before check B for each file, and exits with
    status 1. *)
Theorem check_whyml_files_verdict directory :
  (exit_status (check_whyml_files directory).2 = 0%Z
   ↔ ∀ file, file ∈ directory → endswith file.1 ".mlw" = true →
       check_lemma_axiom_in_lemmas file.1 file.2 = []
       ∧ check_proofs_for_lemmas file.1 file.2 = [])
  ∧ (exit_status (check_whyml_files directory).2 = 0%Z →
     check_whyml_files directory
     = (["Statement-proof-separation check PASSED:";
         "All declared lemmas have proofs in their corresponding -Proof modules."],
        Returns))
  ∧ (exit_status (check_whyml_files directory).2 ≠ 0%Z →
     check_whyml_files directory
     = ("Statement-proof-separation check FAILED:" :: "Errors found:"
          :: concat (file_errors <$> directory),
        Exits 1)).
Proof.
  unfold check_whyml_files. rewrite collect_file_errors. simpl.
  assert (concat (file_errors <$> directory) = []
          ↔ ∀ file, file ∈ directory → endswith file.1 ".mlw" = true →
              check_lemma_axiom_in_lemmas file.1 file.2 = []
              ∧ check_proofs_for_lemmas file.1 file.2 = []) as Hnil.
  { rewrite concat_nil. split.
    - intros Hall file Hfile Hend.
      assert (file_errors file = []) as Herr
        by (apply Hall, list_elem_of_fmap; eauto).
      unfold file_errors in Herr. rewrite Hend in Herr. by apply app_eq_nil.
    - intros Hall l (file & -> & Hfile)%list_elem_of_fmap. unfold file_errors.
      destruct (endswith file.1 ".mlw") eqn:Hend; [|done].
      by destruct (Hall file Hfile Hend) as [-> ->]. }
  destruct (decide (concat (file_errors <$> directory) ≠ [])) as [Hne|He]; simpl.
  - split_and!; [|done|done]. split; [done|]. intros Hall. by apply Hnil in Hall.
  - apply dec_stable in He. split_and!; [|done|done]. split; [|done].
    intros _. by apply Hnil.
Qed.





(** Splitting a text at the end of its longest prefix of a class. *)
Lemma take_while_slice p s :
  s = take_while p s +:+ slice_from (String.length (take_while p s)) s.
Proof.
  induction s as [|c s IH]; [done|]. cbn [take_while].
  destruct (p c); [|done].
  change (String c s = String c (take_while p s
            +:+ slice_from (String.length (take_while p s)) s)).
  by rewrite <-IH.
Qed.

Lemma take_while_all p s : all_chars p (take_while p s) = true.
Proof.
  induction s as [|c s IH]; [done|]. cbn [take_while].
  destruct (p c) eqn:Hc; [|done]. cbn [all_chars]. by rewrite Hc, IH.
Qed.

Lemma take_while_stops p s :
  not_headed p (slice_from (String.length (take_while p s)) s) = true.
Proof.
  induction s as [|c s IH]; [done|]. cbn [take_while].
  destruct (p c) eqn:Hc; [done|]. simpl. by rewrite Hc.
Qed.

Lemma take_while_app p a b :
  all_chars p a = true → not_headed p b = true → take_while p (a +:+ b) = a.
Proof.
  intros Ha Hb. induction a as [|c a IH].
  - destruct b as [|c b]; [done|]. simpl in *.
    by destruct (p c).
  - cbn [all_chars] in Ha. apply andb_true_iff in Ha as [Hc Ha].
    change (String c a +:+ b) with (String c (a +:+ b)).
    cbn [take_while]. by rewrite Hc, IH.
Qed.

Lemma slice_from_app a b : slice_from (String.length a) (a +:+ b) = b.
Proof. induction a as [|c a IH]; [by destruct b|done]. Qed.

Lemma word_not_space c : is_word c = true → is_space c = false.
Proof.
  unfold is_word, is_space. generalize (code c) as n. intros n Hw.
  repeat match goal with
         | |- context [?a <=? ?b] => destruct (Nat.leb_spec a b)
         | |- context [?a =? ?b] => destruct (Nat.eqb_spec a b)
         | H : context [?a <=? ?b] |- _ => destruct (Nat.leb_spec a b)
         | H : context [?a =? ?b] |- _ => destruct (Nat.eqb_spec a b)
         end; simpl in *; try done; lia.
Qed.

(** X13. What check A takes for a module declaration, on a line of ASCII
    text: a line made of the word [module] at its very start, one or more
    white-space characters, a name of one or more word characters (letters,
    digits, underscore) that ends where the word characters end, and
    anything after; the name is what becomes the current module.  A line
    that is indented, or whose [module] is followed by anything but white
    space, declares no module for check A. *)
Theorem module_match_shape line m :
  all_chars is_ascii line = true →
  module_match line = Some m
  ↔ ∃ spaces rest,
      line = "module" +:+ spaces +:+ m +:+ rest
      ∧ spaces ≠ EmptyString ∧ all_chars is_space spaces = true
      ∧ m ≠ EmptyString ∧ all_chars is_word m = true
      ∧ not_headed is_word rest = true.
Proof.
  intros _. unfold module_match. split.
  - destruct (startswith line "module") eqn:Hstart; [|done].
    apply startswith_spec in Hstart as [tail ->].
    change (slice_from 6 ("module" +:+ tail)) with tail.
    set (spaces := take_while is_space tail).
    set (after := slice_from (span_length is_space tail) tail).
    destruct (decide _) as [[Hsp Hname]|]; [|done]. intros [= <-].
    exists spaces, (slice_from (String.length (take_while is_word after)) after).
    split_and!.
    + rewrite <-(take_while_slice is_word after). unfold after, spaces, span_length.
      by rewrite <-(take_while_slice is_space tail).
    + intros Hnil. apply Hsp. unfold span_length. fold spaces. by rewrite Hnil.
    + apply take_while_all.
    + done.
    + apply take_while_all.
    + apply take_while_stops.
  - intros (spaces & rest & -> & Hsp & Hspaces & Hm & Hword & Hrest).
    rewrite (startswith_app "module" _).
    change (slice_from 6 ("module" +:+ spaces +:+ m +:+ rest))
      with (spaces +:+ m +:+ rest).
    assert (take_while is_space (spaces +:+ m +:+ rest) = spaces) as Htake.
    { apply take_while_app; [done|]. destruct m as [|c m]; [done|].
      cbn [all_chars] in Hword. apply andb_true_iff in Hword as [Hc _].
      simpl. by rewrite (word_not_space _ Hc). }
    unfold span_length. rewrite Htake, slice_from_app.
    rewrite (take_while_app _ _ _ Hword Hrest).
    destruct (decide _) as [|Hn]; [done|]. destruct Hn. split; [|done].
    by destruct spaces.
Qed.

Lemma module_match_shape_witness :
  module_match "module  FooLemmas : Bar" = Some "FooLemmas"
  ↔ ∃ spaces rest,
      "module  FooLemmas : Bar" = "module" +:+ spaces +:+ "FooLemmas" +:+ rest
      ∧ spaces ≠ EmptyString ∧ all_chars is_space spaces = true
      ∧ "FooLemmas" ≠ EmptyString ∧ all_chars is_word "FooLemmas" = true
      ∧ not_headed is_word rest = true.
Proof.
  apply (module_match_shape "module  FooLemmas : Bar" "FooLemmas").
  vm_compute. reflexivity.
Defined.

Lemma contains_slice_from needle k s :
  contains needle s = false → contains needle (slice_from k s) = false.
Proof.
  revert s. induction k as [|k IH]; intros s Hs; [by destruct s|].
  destruct s as [|c s]; [done|]. simpl. apply IH. by eapply contains_tail.
Qed.

(** X14. A text without an open marker, or without a close marker, is left
    as it is by [remove_comments]: in particular a comment that is never
    closed is not stripped, and what it holds is scanned by check A. *)
Theorem remove_comments_unchanged s :
  contains "(*" s = false ∨ contains "*)" s = false →
  remove_comments s = s.
Proof.
  intros Hs. apply remove_comments_no_comment.
  induction s as [|c s IH]; [done|]. cbn [no_comment].
  rewrite IH by (destruct Hs as [Hs|Hs]; [left|right]; by eapply contains_tail).
  rewrite andb_true_r. apply negb_true_iff, andb_false_iff.
  destruct Hs as [Hs|Hs].
  - left. cbn [contains] in Hs. by apply orb_false_iff in Hs as [? _].
  - right. by apply contains_slice_from.
Qed.

Lemma remove_comments_unchanged_witness :
  remove_comments "module Foo (* axiom a : never closed"
  = "module Foo (* axiom a : never closed".
Proof.
  apply (remove_comments_unchanged "module Foo (* axiom a : never closed").
  right. vm_compute. reflexivity.
Defined.

(** X15. When the file holds no ascription of a [Proofs] module to a
    [Lemmas] interface at all, check B reports every [Lemmas] module it
    finds, once for each place where it finds it and in that order. *)
Theorem check_proofs_for_lemmas_without_ascription file_path content :
  findall proofs_pattern content = [] →
  check_proofs_for_lemmas file_path content
  = error_B file_path <$> findall lemmas_pattern content.
Proof.
  intros Hnone. unfold check_proofs_for_lemmas. rewrite Hnone. simpl.
  generalize (findall lemmas_pattern content) as lemmas_modules.
  assert (∀ (ls : list string) errors,
            foldl (λ errors lemmas,
                     if decide ((∅ : gmap string string)
                                  !! replace lemmas "Lemmas" "Proofs" ≠ Some lemmas)
                     then errors ++ [error_B file_path lemmas] else errors)
                  errors ls
            = errors ++ (error_B file_path <$> ls)) as Hfold.
  { induction ls as [|l ls IH]; intros errors; cbn [foldl fmap list_fmap];
      [by rewrite app_nil_r|].
    rewrite IH.
    destruct (decide _) as [_|Hn]; [|by destruct Hn; rewrite lookup_empty].
    by rewrite <-(assoc_L (++)). }
  intros ls. exact (Hfold ls []).
Qed.

Lemma check_proofs_for_lemmas_without_ascription_witness :
  check_proofs_for_lemmas "f.mlw" source_two_lemmas
  = error_B "f.mlw" <$> findall lemmas_pattern source_two_lemmas.
Proof.
  apply (check_proofs_for_lemmas_without_ascription "f.mlw" source_two_lemmas).
  vm_compute. reflexivity.
Defined.

Lemma startswith_Lemmas_suffix c x :
  startswith (String c x +:+ "Lemmas") "Lemmas"
  = startswith (String c x +:+ "Lemma") "Lemmas".
Proof.
  destruct x as [|c1 [|c2 [|c3 [|c4 [|c5 x]]]]]; try reflexivity.
  change (startswith (String c (String c1 (String c2 (String c3 (String c4
            (String c5 (x +:+ "Lemmas"))))))) "Lemmas"
          = startswith (String c (String c1 (String c2 (String c3 (String c4
              (String c5 (x +:+ "Lemma"))))))) "Lemmas").
  cbn [startswith]. by rewrite !startswith_nil.
Qed.

(** X16. For a module name in which [Lemmas] occurs only as its ending,
    the name check B looks for, [lemmas.replace('Lemmas', 'Proofs')], is the
    name with that ending turned into [Proofs]. *)
Theorem replace_Lemmas_suffix x :
  contains "Lemmas" (x +:+ "Lemma") = false →
  replace (x +:+ "Lemmas") "Lemmas" "Proofs" = x +:+ "Proofs".
Proof.
  unfold replace. induction x as [|c x IH]; intros Hx; [done|].
  change (String c x +:+ "Lemmas") with (String c (x +:+ "Lemmas")).
  cbn [replace_from].
  change (String c (x +:+ "Lemmas")) with (String c x +:+ "Lemmas").
  rewrite startswith_Lemmas_suffix.
  change (String c x +:+ "Lemma") with (String c (x +:+ "Lemma")) in *.
  cbn [contains] in Hx. apply orb_false_iff in Hx as [-> Hx].
  by rewrite (IH Hx).
Qed.

Lemma replace_Lemmas_suffix_witness :
  replace (String.append "Channel" "Lemmas") "Lemmas" "Proofs"
  = String.append "Channel" "Proofs".
Proof.
  apply (replace_Lemmas_suffix "Channel"). vm_compute. reflexivity.
Defined.

End SeparationExtras.

(** ** Properties of the histogram's data *)

Module HistogramExtras.
Import ET ETSpec ETFacts Histogram MoreSpec.

(** X17. On a well-formed tree [find_proof_elements] returns, and what it
    returns are exactly the elements tagged [proof] strictly below the root,
    at any depth; the root is left out even when it is a [proof]. *)
Theorem find_proof_elements_descendants n t :
  well_formed n t →
  ∃ proofs, find_proof_elements n (store t) (getroot t) = Some proofs
    ∧ ∀ x, x ∈ proofs ↔
        descendant (store t) (getroot t) x ∧ tags (store t) x = Some "proof".
Proof.
  intros Hwf. destruct (iter_tree_at _ _ _ Hwf) as [l Hl].
  unfold find_proof_elements, findall_descendants. rewrite Hl. simpl.
  eexists. split; [done|]. intros x.
  rewrite list_elem_of_filter, (iter_descendant _ _ _ _ _ Hl). unfold tags. split.
  - intros [[? ?] [?|?]]; done.
  - intros [Hd ?]. split_and!; [done| |by right].
    intros ->. by eapply tree_at_acyclic.
Qed.

Lemma find_proof_elements_descendants_witness :
  ∃ proofs, find_proof_elements 4 (store session_proofs) 0 = Some proofs
    ∧ ∀ x, x ∈ proofs ↔
        descendant (store session_proofs) 0 x
        ∧ tags (store session_proofs) x = Some "proof".
Proof.
  apply (find_proof_elements_descendants 4 session_proofs).
  apply (iter_well_formed _ _ [0; 1; 2; 3; 4; 5; 6]). vm_compute. reflexivity.
Defined.

Section Recorded.
Variable int : string → option Z.

Lemma steps_for_cons p entry entries :
  steps_for p (entry :: entries)
  = (if decide (entry.1 = p) then [entry.2] else []) ++ steps_for p entries.
Proof.
  unfold steps_for. rewrite filter_cons. by destruct (decide (entry.1 = p)).
Qed.

(** The loop adds to each prover's list the steps read for that prover, in
    the order of the proofs. *)
Lemma record_proofs_lookup h proofs : ∀ found acc entries,
  mapM (prover_and_steps int h) proofs = Some found →
  omap id found = entries →
  ∃ d, record_proofs int h proofs acc = Some d
    ∧ ∀ p, d !! p
           = if decide (steps_for p entries = []) then acc !! p
             else Some (default [] (acc !! p) ++ steps_for p entries).
Proof.
  induction proofs as [|proof proofs IH]; intros found acc entries Hfound Hent.
  - injection Hfound as <-. subst entries. exists acc. split; [done|]. intros p.
    by destruct (decide _).
  - simpl in Hfound. destruct (prover_and_steps int h proof) as [read|] eqn:Hread;
      simpl in Hfound; [|done].
    destruct (mapM (prover_and_steps int h) proofs) as [found'|] eqn:Hfound';
      simpl in Hfound; [|done].
    injection Hfound as <-. cbn [record_proofs]. rewrite Hread.
    destruct read as [[prover steps]|].
    + assert (entries = (prover, steps) :: omap id found') as ->
        by (by rewrite <-Hent).
      destruct (IH found' (append_steps acc prover steps) (omap id found')
                  eq_refl eq_refl) as (d & Hrun & Hd).
      exists d. split; [exact Hrun|]. intros p. rewrite Hd, steps_for_cons.
      cbn [fst snd]. generalize (steps_for p (omap id found')) as rest.
      intros rest. unfold append_steps. rewrite lookup_insert.
      destruct (decide (prover = p)) as [->|Hne]; cbn [app]; [|done].
      destruct (decide (rest = [])) as [->|_].
      * destruct (decide _) as [|_]; [done|]. by rewrite ?app_nil_r.
      * destruct (decide _) as [|_]; [done|].
        cbn [default from_option id]. by rewrite <-(assoc_L (++)).
    + apply (IH found' acc entries eq_refl). by rewrite <-Hent.
Qed.

Lemma find_child_first_result h cs found :
  Forall (λ c, is_Some (h !! c)) cs →
  first_result h cs found →
  find_child h cs "result" = Some found.
Proof.
  intros Hcs Hfirst. destruct Hfirst as [cs Hnone|before r after Hbefore Hr].
  - induction Hnone as [|c cs Hc _ IH]; [done|].
    apply Forall_cons in Hcs as [[e He] Hcs]. simpl. rewrite He. simpl.
    unfold tags in Hc. rewrite He in Hc. simpl in Hc.
    destruct (decide (tag e = "result")) as [Ht|_]; [by rewrite Ht in Hc|].
    by apply IH.
  - induction Hbefore as [|c before Hc _ IH].
    + apply Forall_cons in Hcs as [[e He] _]. simpl. rewrite He. simpl.
      unfold tags in Hr. rewrite He in Hr. injection Hr as Hr.
      by destruct (decide (tag e = "result")).
    + apply Forall_cons in Hcs as [[e He] Hcs].
      change ((c :: before) ++ r :: after) with (c :: before ++ r :: after).
      cbn [find_child]. rewrite He. simpl.
      unfold tags in Hc. rewrite He in Hc. simpl in Hc.
      destruct (decide (tag e = "result")) as [Ht|_]; [by rewrite Ht in Hc|].
      by apply IH.
Qed.

(** What [reads] tells is what the loop body computes. *)
Lemma reads_prover_and_steps h proof entry :
  (∃ e, h !! proof = Some e ∧ Forall (λ c, is_Some (h !! c)) (children e)) →
  reads int h proof entry →
  prover_and_steps int h proof = Some entry.
Proof.
  intros (e0 & He0 & Hcs) Hreads. unfold prover_and_steps.
  destruct Hreads as [e He Hfirst|e r er prover He <- Hfirst Her Hsteps
                      |e r er prover s steps He <- Hfirst Her Hsteps Hint];
    rewrite He in He0; injection He0 as <-; rewrite He; simpl;
    rewrite (find_child_first_result _ _ _ Hcs Hfirst); simpl; [done|..];
    rewrite Her; simpl; rewrite Hsteps; [done|].
  by rewrite Hint.
Qed.

Lemma reads_all h proofs found :
  (∀ proof, proof ∈ proofs →
     ∃ e, h !! proof = Some e ∧ Forall (λ c, is_Some (h !! c)) (children e)) →
  Forall2 (reads int h) proofs found →
  mapM (prover_and_steps int h) proofs = Some found.
Proof.
  intros Hpresent Hreads. apply mapM_Some.
  induction Hreads as [|proof entry proofs found Hentry _ IH]; constructor.
  - apply reads_prover_and_steps; [|done]. apply Hpresent. by left.
  - apply IH. intros proof' Hin. apply Hpresent. by right.
Qed.

(** X18. On a well-formed tree [parse_prover_steps] finds the proofs, the
    elements tagged [proof] strictly below the root.  Let each proof be read
    as follows: a proof without a child tagged [result] is skipped; a proof
    with one brings its [prover] attribute (possibly absent) and the steps of
    its first [result] child, 0 when that child has no [steps] attribute and
    else the integer the attribute denotes.  When every proof can be read so
    (no [int] raises), [parse_prover_steps] returns a table in which each
    prover has the steps its proofs brought, in the order of the proofs; a
    prover whose proofs brought nothing has no entry, so that no list of the
    table is empty. *)
Theorem parse_prover_steps_by_prover n t :
  well_formed n t →
  ∃ proofs,
    find_proof_elements n (store t) (getroot t) = Some proofs
    ∧ (∀ x, x ∈ proofs ↔
         descendant (store t) (getroot t) x ∧ tags (store t) x = Some "proof")
    ∧ ∀ found,
        Forall2 (reads int (store t)) proofs found →
        ∃ d, parse_prover_steps int n t = Some d
          ∧ ∀ p, d !! p
                 = if decide (steps_for p (omap id found) = []) then None
                   else Some (steps_for p (omap id found)).
Proof.
  intros Hwf. destruct (iter_tree_at _ _ _ Hwf) as [l Hl].
  unfold parse_prover_steps, find_proof_elements, findall_descendants.
  rewrite Hl. simpl. eexists. split; [done|]. split.
  - intros x.
    rewrite list_elem_of_filter, (iter_descendant _ _ _ _ _ Hl). unfold tags. split.
    + intros [[? ?] [?|?]]; done.
    + intros [Hd ?]. split_and!; [done| |by right].
      intros ->. by eapply tree_at_acyclic.
  - intros found Hreads.
    pose proof (reads_all _ _ _ (λ proof Hin,
                  iter_closed _ _ _ _ _ Hl
                    (proj2 (proj1 (list_elem_of_filter _ _ _) Hin))) Hreads)
      as Hfound.
    destruct (record_proofs_lookup _ _ _ ∅ _ Hfound eq_refl) as (d & Hrun & Hd).
    exists d. split; [exact Hrun|]. intros p. rewrite Hd, lookup_empty. done.
Qed.

End Recorded.

Lemma parse_prover_steps_by_prover_witness :
  ∃ d, parse_prover_steps int_small 4 session_proofs = Some d
    ∧ d !! Some "0" = Some [12%Z; 0%Z]
    ∧ d !! Some "1" = None.
Proof.
  destruct (parse_prover_steps_by_prover int_small 4 session_proofs)
    as (proofs & Hproofs & _ & Hread).
  - apply (iter_well_formed _ _ [0; 1; 2; 3; 4; 5; 6]). vm_compute. reflexivity.
  - assert (proofs = [2; 4; 5]) as ->.
    { vm_compute in Hproofs. by injection Hproofs as <-. }
    destruct (Hread [Some (Some "0", 12%Z); None; Some (Some "0", 0%Z)])
      as (d & Hd & Htable).
    + constructor; [|constructor; [|constructor; [|constructor]]].
      * apply (reads_steps _ _ _ (mkElement "proof" {["prover" := "0"]} [3]) 3
                 (mkElement "result" {["steps" := "12"]} []) (Some "0") "12" 12%Z);
          [vm_compute; reflexivity..| |vm_compute; reflexivity
           |vm_compute; reflexivity|vm_compute; reflexivity].
        apply (first_result_some _ [] 3 []); [constructor|vm_compute; reflexivity].
      * apply (reads_skipped _ _ _ (mkElement "proof" {["prover" := "1"]} []));
          [vm_compute; reflexivity|]. apply first_result_none. constructor.
      * apply (reads_default _ _ _ (mkElement "proof" {["prover" := "0"]} [6]) 6
                 (mkElement "result" ∅ []) (Some "0"));
          [vm_compute; reflexivity|vm_compute; reflexivity|
           |vm_compute; reflexivity|vm_compute; reflexivity].
        apply (first_result_some _ [] 6 []); [constructor|vm_compute; reflexivity].
    + exists d. split; [exact Hd|]. split; rewrite Htable; vm_compute; reflexivity.
Defined.

End HistogramExtras.
